(** * Realtime audio streamer: resampling, mixing and stream lifecycle

    A shallow embedding of
    [passive_sound_localization/realtime_audio_streamer.py]
    (class [RealtimeAudioStreamer]) together with the properties its
    design document states about it.

    Conventions of the embedding.
    - A Python [bytes] object is a [list byte]; a NumPy [int16] array is a
      [list Z] whose entries lie in the signed 16-bit range; a NumPy
      [float64] array is a [list Q] (every finite double is a rational).
    - A call that may raise returns a [result]; the exception classes that
      occur are the constructors of [exn].  All of them derive from
      [Exception], so [except Exception] catches every one of them.
    - PyAudio, the sound hardware and [scipy.signal.resample] are outside the
      repository.  They are gathered in a record [Host] of oracles and every
      statement is made for an arbitrary host.
    - [print] calls are not modelled. *)

From Stdlib Require Import ZArith QArith Qround Qminmax Qfield Lqa List Bool Lia Permutation.
From Stdlib.Strings Require Import Byte.
Import ListNotations.
Open Scope Z_scope.

(** ** Exceptions and results *)

Inductive exn : Type :=
| AttributeError
| IndexError
| KeyError
| ValueError
| ZeroDivisionError
| OSError
| InvalidDeviceIndexError.

Inductive result (A : Type) : Type :=
| Ok (a : A)
| Raise (e : exn).

Arguments Ok {A} a.
Arguments Raise {A} e.

Definition is_ok {A : Type} (r : result A) : bool :=
  match r with Ok _ => true | Raise _ => false end.

Definition bytes : Type := list byte.

(** ** NumPy and Python arithmetic used by the streamer *)

Module Np.

(** Python's [round] on a float: to the nearest integer, ties to the even
    one.  The quotient is taken exactly; the double-precision quotient of
    the source rounds the same way as long as byte counts times rates stay
    below 2^52. *)
Definition py_round (x : Q) : Z :=
  let f := Qfloor x in
  match Qcompare (x - inject_Z f) (1 # 2) with
  | Lt => f
  | Gt => f + 1
  | Eq => if Z.even f then f else f + 1
  end.

(** Truncation toward zero, the integer part kept by a C cast. *)
Definition Qtrunc (x : Q) : Z := Z.quot (Qnum x) (Zpos (Qden x)).

(** Reduction of an integer to the signed 16-bit range modulo 2^16. *)
Definition wrap_int16 (z : Z) : Z := (z + 32768) mod 65536 - 32768.

(** [ndarray.astype(np.int16)] on a float: the C cast NumPy performs, as it
    comes out on x86-64.  The fraction is dropped; an integer part within the
    signed 32-bit range keeps its low 16 bits; outside that range the
    conversion gives 0.  It does not saturate. *)
Definition astype_int16 (x : Q) : Z :=
  let z := Qtrunc x in
  if (-2147483648 <=? z) && (z <=? 2147483647) then wrap_int16 z else 0.

(** [np.clip(x, lo, hi)]. *)
Definition clip (lo hi x : Q) : Q := Qmin (Qmax x lo) hi.

Definition byte_of_Z (z : Z) : byte :=
  match Byte.of_N (Z.to_N (z mod 256)) with
  | Some b => b
  | None => x00
  end.

Definition Z_of_byte (b : byte) : Z := Z.of_N (Byte.to_N b).

(** One [int16] sample as two little-endian bytes. *)
Definition int16_tobytes (z : Z) : bytes :=
  [byte_of_Z z; byte_of_Z (z / 256)].

(** [ndarray.tobytes()] of an [int16] array. *)
Definition tobytes (a : list Z) : bytes := flat_map int16_tobytes a.

(** [np.frombuffer(b, dtype=np.int16)]: [ValueError] when the buffer size
    is not a multiple of the element size. *)
Fixpoint frombuffer_int16 (b : bytes) : result (list Z) :=
  match b with
  | [] => Ok []
  | [_] => Raise ValueError
  | lo :: hi :: rest =>
      match frombuffer_int16 rest with
      | Ok l => Ok (wrap_int16 (Z_of_byte lo + 256 * Z_of_byte hi) :: l)
      | Raise e => Raise e
      end
  end.

(** Elementwise sum of two rows of one length. *)
Fixpoint add_rows (a b : list Z) : list Z :=
  match a, b with
  | x :: a', y :: b' => (x + y) :: add_rows a' b'
  | _, _ => []
  end.

(** [np.sum(rows, axis=0)] for a Python list of one-dimensional arrays.
    The list is first turned into a two-dimensional array, which NumPy
    (1.24 and later) refuses with [ValueError] when the rows differ in
    length.  The accumulator is the platform integer, wide enough for any
    realistic number of 16-bit rows, so the sums are exact. *)
Definition sum_axis0 (rows : list (list Z)) : result (list Z) :=
  match rows with
  | [] => Ok []
  | a :: rest =>
      if forallb (fun b => Nat.eqb (length b) (length a)) rest
      then Ok (fold_left add_rows rest a)
      else Raise ValueError
  end.

End Np.

(** ** The resampler *)

(** [scipy.signal.resample(x, num)]: Fourier-method resampling of [x] to
    [num] samples.  It is a library outside the repository and computes in
    floating point, so it is an oracle here; it may raise. *)
Definition Resampler : Type := bytes -> Z -> result (list Q).

(** [round(len(audio_data) * float(target_sample_rate) / original_sample_rate)];
    float division by zero raises [ZeroDivisionError].  The quotient is taken
    exactly: the double-precision quotient of the source rounds to the same
    integer for rates below 2^53 in size and [len * |target|] below 2^52,
    beyond which the two can differ and [float] can overflow. *)
Definition number_of_samples (audio_data : bytes) (original_sample_rate target_sample_rate : Z)
  : result Z :=
  if original_sample_rate =? 0 then Raise ZeroDivisionError
  else Ok (Np.py_round
             (inject_Z (Z.of_nat (length audio_data)) * inject_Z target_sample_rate
              / inject_Z original_sample_rate)%Q).

Definition _resample_audio (resample : Resampler) (audio_data : bytes)
    (original_sample_rate target_sample_rate : Z) : result bytes :=
  if original_sample_rate =? target_sample_rate then Ok audio_data
  else
    match number_of_samples audio_data original_sample_rate target_sample_rate with
    | Raise e => Raise e
    | Ok n =>
        match resample audio_data n with
        | Raise e => Raise e
        | Ok resampled_audio => Ok (Np.tobytes (map Np.astype_int16 resampled_audio))
        end
    end.

(** ** The mixer *)

Definition _mix_audio_chunks (audio_arrays : list (list Z)) : result (list Z) :=
  match audio_arrays with
  | [] => Ok []
  | _ :: _ =>
      match Np.sum_axis0 audio_arrays with
      | Raise e => Raise e
      | Ok s =>
          let n := inject_Z (Z.of_nat (length audio_arrays)) in
          Ok (map (fun v => Np.astype_int16
                              (Np.clip (inject_Z (-32768)) (inject_Z 32767) (inject_Z v / n)%Q))
                  s)
      end
  end.

(** ** Python dictionaries

    A [dict] keeps its keys in insertion order; assigning to a key that is
    present replaces the value in place. *)

Definition dict (V : Type) : Type := list (Z * V).

Fixpoint dict_get {V : Type} (d : dict V) (k : Z) : option V :=
  match d with
  | [] => None
  | (k', v) :: rest => if k' =? k then Some v else dict_get rest k
  end.

Fixpoint dict_set {V : Type} (d : dict V) (k : Z) (v : V) : dict V :=
  match d with
  | [] => [(k, v)]
  | (k', v') :: rest =>
      if k' =? k then (k', v) :: rest else (k', v') :: dict_set rest k v
  end.

Definition truthy {A : Type} (l : list A) : bool :=
  match l with [] => false | _ :: _ => true end.

(** ** The audio host: PyAudio and the sound hardware *)

(** An open [pyaudio.Stream]. *)
Definition Stream : Type := nat.

(** The [PyAudio] instance; like every plain object it is truthy. *)
Inductive PyAudio : Type := PyAudioInstance.

(** Calls made to the host, in the order they are made. *)
Inductive event : Type :=
| EvPyAudio
| EvDeviceInfo (device_index : Z)
| EvOpen (input_device_index rate : Z)
| EvRead (s : Stream)
| EvStop (s : Stream)
| EvClose (s : Stream)
| EvTerminate.

Definition trace : Type := list event.

(** What the host answers to a call may depend on every call made before
    it. *)
Record Host : Type := {
  pyaudio_new : trace -> result PyAudio;
  (** [get_device_info_by_index(i)["defaultSampleRate"]] *)
  get_device_info_by_index : trace -> Z -> result Q;
  (** [open(format, channels, rate, input_device_index, frames_per_buffer)] *)
  audio_open : trace -> Z -> Z -> Z -> Z -> Z -> result Stream;
  (** [stream.read(chunk, exception_on_overflow=False)] *)
  stream_read : trace -> Stream -> Z -> result bytes;
  stop_stream : trace -> Stream -> result unit;
  stream_close : trace -> Stream -> result unit;
  terminate : trace -> result unit;
  resample : Resampler
}.

(** ** The streamer object *)

Definition paInt16 : Z := 8.

(** The attributes of a [RealtimeAudioStreamer].  The last three are not
    created by [__init__]: [None] stands for an attribute the object does
    not have, and reading it raises [AttributeError]. *)
Record Streamer : Type := {
  sample_rate : Z;
  channels : Z;
  chunk : Z;
  device_indices : list Z;
  format : Z;
  audio : option PyAudio;
  streams : list (option Stream);
  streaming : bool;
  original_sample_rates : dict Z;
  device_index : option Z;
  original_sample_rate : option Z;
  stream : option Stream
}.

Definition __init__ (sample_rate channels chunk : Z) : Streamer :=
  {| sample_rate := sample_rate;
     channels := channels;
     chunk := chunk;
     device_indices := [];
     format := paInt16;
     audio := None;
     streams := [];
     streaming := false;
     original_sample_rates := [];
     device_index := None;
     original_sample_rate := None;
     stream := None |}.

Definition set_audio (v : option PyAudio) (self : Streamer) : Streamer :=
  {| sample_rate := sample_rate self; channels := channels self; chunk := chunk self;
     device_indices := device_indices self; format := format self;
     audio := v;
     streams := streams self; streaming := streaming self;
     original_sample_rates := original_sample_rates self;
     device_index := device_index self;
     original_sample_rate := original_sample_rate self; stream := stream self |}.

Definition set_streams (v : list (option Stream)) (self : Streamer) : Streamer :=
  {| sample_rate := sample_rate self; channels := channels self; chunk := chunk self;
     device_indices := device_indices self; format := format self;
     audio := audio self;
     streams := v; streaming := streaming self;
     original_sample_rates := original_sample_rates self;
     device_index := device_index self;
     original_sample_rate := original_sample_rate self; stream := stream self |}.

Definition set_streaming (v : bool) (self : Streamer) : Streamer :=
  {| sample_rate := sample_rate self; channels := channels self; chunk := chunk self;
     device_indices := device_indices self; format := format self;
     audio := audio self;
     streams := streams self; streaming := v;
     original_sample_rates := original_sample_rates self;
     device_index := device_index self;
     original_sample_rate := original_sample_rate self; stream := stream self |}.

Definition set_original_sample_rate (v : option Z) (self : Streamer) : Streamer :=
  {| sample_rate := sample_rate self; channels := channels self; chunk := chunk self;
     device_indices := device_indices self; format := format self;
     audio := audio self;
     streams := streams self; streaming := streaming self;
     original_sample_rates := original_sample_rates self;
     device_index := device_index self;
     original_sample_rate := v; stream := stream self |}.

Definition set_stream (v : option Stream) (self : Streamer) : Streamer :=
  {| sample_rate := sample_rate self; channels := channels self; chunk := chunk self;
     device_indices := device_indices self; format := format self;
     audio := audio self;
     streams := streams self; streaming := streaming self;
     original_sample_rates := original_sample_rates self;
     device_index := device_index self;
     original_sample_rate := original_sample_rate self; stream := v |}.

(** Attribute assignment from outside the class, [obj.device_index = i]. *)
Definition set_device_index (v : option Z) (self : Streamer) : Streamer :=
  {| sample_rate := sample_rate self; channels := channels self; chunk := chunk self;
     device_indices := device_indices self; format := format self;
     audio := audio self;
     streams := streams self; streaming := streaming self;
     original_sample_rates := original_sample_rates self;
     device_index := v;
     original_sample_rate := original_sample_rate self; stream := stream self |}.

(** ** Methods that change the object: a state and exception monad

    A method runs on the object and the trace of host calls; both keep the
    changes made before an exception was raised. *)

Definition M (A : Type) : Type := Streamer -> trace -> result A * Streamer * trace.

Definition ret {A : Type} (a : A) : M A := fun self tr => (Ok a, self, tr).

Definition raise {A : Type} (e : exn) : M A := fun self tr => (Raise e, self, tr).

Definition bind {A B : Type} (m : M A) (k : A -> M B) : M B :=
  fun self tr =>
    match m self tr with
    | (Ok a, self', tr') => k a self' tr'
    | (Raise e, self', tr') => (Raise e, self', tr')
    end.

Notation "x <- m ;; k" := (bind m (fun x => k))
  (at level 61, m at next level, right associativity).
Notation "m ;; k" := (bind m (fun _ => k))
  (at level 61, right associativity).

Definition get : M Streamer := fun self tr => (Ok self, self, tr).

Definition modify (f : Streamer -> Streamer) : M unit := fun self tr => (Ok tt, f self, tr).

(** A call to the host: it is answered from the calls made so far and then
    recorded. *)
Definition call {A : Type} (f : trace -> result A) (e : event) : M A :=
  fun self tr => (f tr, self, tr ++ [e]).

(** Reading an attribute that may be missing. *)
Definition getattr {A : Type} (field : Streamer -> option A) : M A :=
  fun self tr =>
    match field self with
    | Some v => (Ok v, self, tr)
    | None => (Raise AttributeError, self, tr)
    end.

Definition exn_eqb (a b : exn) : bool :=
  match a, b with
  | AttributeError, AttributeError | IndexError, IndexError | KeyError, KeyError
  | ValueError, ValueError | ZeroDivisionError, ZeroDivisionError | OSError, OSError
  | InvalidDeviceIndexError, InvalidDeviceIndexError => true
  | _, _ => false
  end.

(** [try: body except cls: handler] *)
Definition try_except {A : Type} (body : M A) (cls : exn) (handler : M A) : M A :=
  fun self tr =>
    match body self tr with
    | (Raise e, self', tr') =>
        if exn_eqb e cls then handler self' tr' else (Raise e, self', tr')
    | r => r
    end.

Definition __aenter__ (h : Host) : M unit :=
  a <- call (pyaudio_new h) EvPyAudio ;;
  modify (set_audio (Some a)) ;;
  try_except
    (i <- getattr device_index ;;
     rate <- call (fun tr => get_device_info_by_index h tr i) (EvDeviceInfo i) ;;
     modify (set_original_sample_rate (Some (Np.Qtrunc rate))))
    IndexError
    (raise InvalidDeviceIndexError) ;;
  self <- get ;;
  rate <- getattr original_sample_rate ;;
  i <- getattr device_index ;;
  s <- call (fun tr => audio_open h tr (format self) (channels self) rate i (chunk self))
            (EvOpen i rate) ;;
  modify (set_stream (Some s)) ;;
  modify (set_streaming true) ;;
  ret tt.

(** The loop of [__aexit__] over [self.streams]; [None] entries are falsy
    and skipped. *)
Fixpoint close_streams (h : Host) (l : list (option Stream)) : M unit :=
  match l with
  | [] => ret tt
  | None :: rest => close_streams h rest
  | Some s :: rest =>
      call (fun tr => stop_stream h tr s) (EvStop s) ;;
      call (fun tr => stream_close h tr s) (EvClose s) ;;
      close_streams h rest
  end.

Definition __aexit__ (h : Host) : M unit :=
  modify (set_streaming false) ;;
  self <- get ;;
  close_streams h (streams self) ;;
  modify (set_streams []) ;;
  self <- get ;;
  match audio self with
  | Some _ =>
      call (terminate h) EvTerminate ;;
      modify (set_audio None)
  | None => ret tt
  end.

(** ** The two generators

    The generators only read the object.  One turn of [while self.streaming]
    either yields an item, or falls through to the next turn, or ends the
    generator. *)

Inductive gen_step (A : Type) : Type :=
| Yield (a : A)
| Skip
| Return.

Arguments Yield {A} a.
Arguments Skip {A}.
Arguments Return {A}.

(** [stream.read(self.chunk, exception_on_overflow=False)]; the entries of
    [self.streams] are optional and [None] has no [read]. *)
Definition read_stream (h : Host) (self : Streamer) (tr : trace) (stream : option Stream)
  : result bytes * trace :=
  match stream with
  | None => (Raise AttributeError, tr)
  | Some s => (stream_read h tr s (chunk self), tr ++ [EvRead s])
  end.

(** The statements of the inner [try] that both generators share: the read,
    the lookup [self.original_sample_rates[device_index]] and the
    resampling. *)
Definition read_resampled (h : Host) (self : Streamer) (tr : trace)
    (device_index : Z) (stream : option Stream) : result bytes * trace :=
  match read_stream h self tr stream with
  | (Raise e, tr') => (Raise e, tr')
  | (Ok data, tr') =>
      match dict_get (original_sample_rates self) device_index with
      | None => (Raise KeyError, tr')
      | Some rate => (_resample_audio (resample h) data rate (sample_rate self), tr')
      end
  end.

(** The inner [try] of [single_channel_gen] goes on with [np.frombuffer]. *)
Definition read_array (h : Host) (self : Streamer) (tr : trace)
    (device_index : Z) (stream : option Stream) : result (list Z) * trace :=
  match read_resampled h self tr device_index stream with
  | (Raise e, tr') => (Raise e, tr')
  | (Ok resampled_data, tr') => (Np.frombuffer_int16 resampled_data, tr')
  end.

(** The [for] loop of [multi_channel_gen]; an exception of the inner [try]
    is caught and the device left out. *)
Fixpoint multi_channel_loop (h : Host) (self : Streamer)
    (pairs : list (Z * option Stream)) (audio_data : dict bytes) (tr : trace)
  : dict bytes * trace :=
  match pairs with
  | [] => (audio_data, tr)
  | (device_index, stream) :: rest =>
      match read_resampled h self tr device_index stream with
      | (Ok resampled_data, tr') =>
          multi_channel_loop h self rest (dict_set audio_data device_index resampled_data) tr'
      | (Raise _, tr') => multi_channel_loop h self rest audio_data tr'
      end
  end.

Definition multi_channel_cycle (h : Host) (self : Streamer) (tr : trace)
  : gen_step (dict bytes) * trace :=
  if streaming self then
    let (audio_data, tr') :=
      multi_channel_loop h self (combine (device_indices self) (streams self)) [] tr in
    if truthy audio_data then (Yield audio_data, tr') else (Skip, tr')
  else (Return, tr).

(** The [for] loop of [single_channel_gen]. *)
Fixpoint single_channel_loop (h : Host) (self : Streamer)
    (pairs : list (Z * option Stream)) (audio_arrays : list (list Z)) (tr : trace)
  : list (list Z) * trace :=
  match pairs with
  | [] => (audio_arrays, tr)
  | (device_index, stream) :: rest =>
      match read_array h self tr device_index stream with
      | (Ok audio_array, tr') =>
          single_channel_loop h self rest (audio_arrays ++ [audio_array]) tr'
      | (Raise _, tr') => single_channel_loop h self rest audio_arrays tr'
      end
  end.

(** An exception of [_mix_audio_chunks] is outside the inner [try]: the
    outer [except Exception] catches it and the generator ends. *)
Definition single_channel_cycle (h : Host) (self : Streamer) (tr : trace)
  : gen_step bytes * trace :=
  if streaming self then
    let (audio_arrays, tr') :=
      single_channel_loop h self (combine (device_indices self) (streams self)) [] tr in
    if truthy audio_arrays then
      match _mix_audio_chunks audio_arrays with
      | Ok mixed_data => (Yield (Np.tobytes mixed_data), tr')
      | Raise _ => (Return, tr')
      end
    else (Skip, tr')
  else (Return, tr).

(** What one request for the next item gives: an item, the end of the
    sequence ([StopAsyncIteration]), or, when the given number of loop turns
    is used up, a generator that is still running without having yielded. *)
Inductive pull (A : Type) : Type :=
| Item (a : A)
| Exhausted
| Running.

Arguments Item {A} a.
Arguments Exhausted {A}.
Arguments Running {A}.

Fixpoint anext {A : Type} (cycle : Streamer -> trace -> gen_step A * trace)
    (fuel : nat) (self : Streamer) (tr : trace) : pull A * trace :=
  match fuel with
  | O => (Running, tr)
  | S fuel' =>
      match cycle self tr with
      | (Yield a, tr') => (Item a, tr')
      | (Return, tr') => (Exhausted, tr')
      | (Skip, tr') => anext cycle fuel' self tr'
      end
  end.

Definition multi_channel_gen (h : Host) : nat -> Streamer -> trace -> pull (dict bytes) * trace :=
  anext (multi_channel_cycle h).

Definition single_channel_gen (h : Host) : nat -> Streamer -> trace -> pull bytes * trace :=
  anext (single_channel_cycle h).

(** The outcome of each device of one cycle, in order, for a per-device
    step [step]. *)
Fixpoint cycle_outcomes {A : Type}
    (step : trace -> Z -> option Stream -> result A * trace)
    (pairs : list (Z * option Stream)) (tr : trace) : list (result A) :=
  match pairs with
  | [] => []
  | (device_index, stream) :: rest =>
      let (r, tr') := step tr device_index stream in
      r :: cycle_outcomes step rest tr'
  end.

(** The results of the [stream.read] calls of one cycle. *)
Definition cycle_reads (h : Host) (self : Streamer) (tr : trace) : list (result bytes) :=
  cycle_outcomes (fun tr _ stream => read_stream h self tr stream)
                 (combine (device_indices self) (streams self)) tr.

(** The results of the inner [try] blocks of one cycle of
    [multi_channel_gen]. *)
Definition cycle_resampled (h : Host) (self : Streamer) (tr : trace) : list (result bytes) :=
  cycle_outcomes (read_resampled h self)
                 (combine (device_indices self) (streams self)) tr.

(** The results of the inner [try] blocks of one cycle of
    [single_channel_gen]. *)
Definition cycle_arrays (h : Host) (self : Streamer) (tr : trace) : list (result (list Z)) :=
  cycle_outcomes (read_array h self)
                 (combine (device_indices self) (streams self)) tr.

(** The arrays a cycle of [single_channel_gen] hands to the mixer. *)
Definition collected_arrays (h : Host) (self : Streamer) (tr : trace) : list (list Z) :=
  fst (single_channel_loop h self (combine (device_indices self) (streams self)) [] tr).

(** ** Concrete hosts

    Small hosts on which the definitions above can be run. *)

(** A resampler that answers [num] samples of silence, as the Fourier method
    does on a silent buffer; a negative [num] is refused. *)
Definition silent_resample : Resampler :=
  fun _ num => if num <? 0 then Raise ValueError else Ok (repeat 0%Q (Z.to_nat num)).

(** What [scipy.signal.resample] answers when it is handed a [bytes] object,
    which is what [_resample_audio] hands it: NumPy makes a zero-dimensional
    array of a [bytes] object, that array has no axis 0 to resample along,
    and the lookup of the axis raises [IndexError], whatever the buffer and
    the count. *)
Definition scipy_resample_bytes : Resampler := fun _ _ => Raise IndexError.

(** A resampler that refuses its input. *)
Definition refusing_resample : Resampler := fun _ _ => Raise ValueError.

(** A machine with input devices 0 to 5, all at 48000 Hz.  An index outside
    that range is answered with [IndexError]; the stream opened on device
    [i] is stream [i]; every read gives [chunk] frames of silence. *)
Definition lab_device_info (i : Z) : result Q :=
  if (0 <=? i) && (i <=? 5) then Ok (48000 # 1)%Q else Raise IndexError.

Definition lab_host : Host :=
  {| pyaudio_new := fun _ => Ok PyAudioInstance;
     get_device_info_by_index := fun _ i => lab_device_info i;
     audio_open := fun _ _ _ _ i _ => Ok (Z.to_nat i);
     stream_read := fun _ _ chunk => Ok (repeat x00 (2 * Z.to_nat chunk));
     stop_stream := fun _ _ => Ok tt;
     stream_close := fun _ _ => Ok tt;
     terminate := fun _ => Ok tt;
     resample := silent_resample |}.



(** The same machine with a resampler that refuses its input. *)
Definition refusing_host : Host :=
  {| pyaudio_new := pyaudio_new lab_host;
     get_device_info_by_index := get_device_info_by_index lab_host;
     audio_open := audio_open lab_host;
     stream_read := stream_read lab_host;
     stop_stream := stop_stream lab_host;
     stream_close := stream_close lab_host;
     terminate := terminate lab_host;
     resample := refusing_resample |}.

(** The same machine with every read failing. *)
Definition deaf_host : Host :=
  {| pyaudio_new := pyaudio_new lab_host;
     get_device_info_by_index := get_device_info_by_index lab_host;
     audio_open := audio_open lab_host;
     stream_read := fun _ _ _ => Raise OSError;
     stop_stream := stop_stream lab_host;
     stream_close := stream_close lab_host;
     terminate := terminate lab_host;
     resample := resample lab_host |}.

(** A streamer as [__init__] leaves it, with the default arguments. *)
Definition fresh : Streamer := __init__ 24000 1 1024.

(** A streamer whose lists were filled in from outside the class with the
    lab devices 2 and 3, both at 48000 Hz, and which is streaming. *)
Definition two_devices : Streamer :=
  {| sample_rate := 24000; channels := 1; chunk := 4;
     device_indices := [2; 3];
     format := paInt16;
     audio := Some PyAudioInstance;
     streams := [Some 2%nat; Some 3%nat];
     streaming := true;
     original_sample_rates := [(2, 48000); (3, 48000)];
     device_index := None;
     original_sample_rate := None;
     stream := None |}.

(** The same streamer with [original_sample_rates] left as [__init__]
    made it. *)
Definition two_devices_no_rates : Streamer :=
  {| sample_rate := 24000; channels := 1; chunk := 4;
     device_indices := [2; 3];
     format := paInt16;
     audio := Some PyAudioInstance;
     streams := [Some 2%nat; Some 3%nat];
     streaming := true;
     original_sample_rates := [];
     device_index := None;
     original_sample_rate := None;
     stream := None |}.


(** The object a method leaves behind. *)
Definition object_after {A : Type} (r : result A * Streamer * trace) : Streamer :=
  snd (fst r).

(** A method [m] leaves the attribute [f] as it found it, on every path,
    the raising ones included. *)
Definition preserves {A B : Type} (f : Streamer -> B) (m : M A) : Prop :=
  forall self tr, f (object_after (m self tr)) = f self.


(** A value that fits a signed 16-bit sample. *)
Definition in_int16 (z : Z) : Prop := -32768 <= z <= 32767.

(** The [stream.read] calls of one cycle over the zipped pairs, in order;
    a [None] entry has no stream to call. *)
Definition cycle_read_events (pairs : list (Z * option Stream)) : trace :=
  flat_map (fun p => match snd p with
                     | Some s => [EvRead s]
                     | None => []
                     end) pairs.

(** The values of the outcomes that are not exceptions, in order. *)
Fixpoint oks {A : Type} (outcomes : list (result A)) : list A :=
  match outcomes with
  | [] => []
  | Ok a :: rest => a :: oks rest
  | Raise _ :: rest => oks rest
  end.

(** The devices of one cycle whose outcome is not an exception, each with
    its value, in order. *)
Fixpoint successes {A : Type} (pairs : list (Z * option Stream)) (outcomes : list (result A))
  : list (Z * A) :=
  match pairs, outcomes with
  | (d, _) :: pairs', Ok a :: rest => (d, a) :: successes pairs' rest
  | _ :: pairs', Raise _ :: rest => successes pairs' rest
  | _, _ => []
  end.

(** The lab machine with streams of unequal buffer size: a read of stream
    [s] gives [s] bytes of silence, whatever was asked for. *)
Definition uneven_host : Host :=
  {| pyaudio_new := pyaudio_new lab_host;
     get_device_info_by_index := get_device_info_by_index lab_host;
     audio_open := audio_open lab_host;
     stream_read := fun _ s _ => Ok (repeat x00 s);
     stop_stream := stop_stream lab_host;
     stream_close := stream_close lab_host;
     terminate := terminate lab_host;
     resample := resample lab_host |}.


(** The lab machine, except that every read of stream 3 fails. *)
Definition half_deaf_host : Host :=
  {| pyaudio_new := pyaudio_new lab_host;
     get_device_info_by_index := get_device_info_by_index lab_host;
     audio_open := audio_open lab_host;
     stream_read := fun tr s chunk =>
                      if Nat.eqb s 3 then Raise OSError else stream_read lab_host tr s chunk;
     stop_stream := stop_stream lab_host;
     stream_close := stream_close lab_host;
     terminate := terminate lab_host;
     resample := resample lab_host |}.

(** A machine on which looking up any device fails the way PortAudio
    reports it, with [OSError]. *)
Definition no_device_host : Host :=
  {| pyaudio_new := pyaudio_new lab_host;
     get_device_info_by_index := fun _ _ => Raise OSError;
     audio_open := audio_open lab_host;
     stream_read := stream_read lab_host;
     stop_stream := stop_stream lab_host;
     stream_close := stream_close lab_host;
     terminate := terminate lab_host;
     resample := resample lab_host |}.

(** A streaming streamer with the single lab device 3, whose native rate
    is the target rate. *)
Definition one_device : Streamer :=
  {| sample_rate := 48000; channels := 1; chunk := 4;
     device_indices := [3];
     format := paInt16;
     audio := Some PyAudioInstance;
     streams := [Some 3%nat];
     streaming := true;
     original_sample_rates := [(3, 48000)];
     device_index := None;
     original_sample_rate := None;
     stream := None |}.

(** A sum of [k] values that each fit a signed 16-bit sample. *)
Definition within (k : Z) (v : Z) : Prop := -32768 * k <= v <= 32767 * k.

(** Adding one more row to a running column sum that may not have started
    yet. *)
Definition sum_step (r : list Z) (acc : option (list Z)) : option (list Z) :=
  match acc with
  | None => Some r
  | Some s => Some (Np.add_rows r s)
  end.

(** The object a successful [__aenter__] leaves: handle [a], native rate
    [rate] as the host reported it, and open stream [s]. *)
Definition entered (self : Streamer) (a : PyAudio) (rate : Q) (s : Stream) : Streamer :=
  set_streaming true
    (set_stream (Some s)
       (set_original_sample_rate (Some (Np.Qtrunc rate))
          (set_audio (Some a) self))).

(** * Properties *)

(** ** Sanity checks of the arithmetic *)

Example py_round_ties :
  map Np.py_round [1 # 2; 3 # 2; 5 # 2; -1 # 2; 7 # 4]%Q = [0; 2; 2; 0; 2].
Proof. reflexivity. Qed.

Example astype_examples :
  map Np.astype_int16 [40000 # 1; -3 # 2; 32767 # 1; -32769 # 1; 5 # 2]%Q
  = [-25536; -1; 32767; 32767; 2].
Proof. reflexivity. Qed.

Example mix_opposite : _mix_audio_chunks [repeat 100 4; repeat (-100) 4] = Ok (repeat 0 4).
Proof. reflexivity. Qed.

Example mix_single : _mix_audio_chunks [[1; -2; 32767; -32768]] = Ok [1; -2; 32767; -32768].
Proof. reflexivity. Qed.

Example tobytes_frombuffer :
  Np.frombuffer_int16 (Np.tobytes [-25536; 1; -1; 32767]) = Ok [-25536; 1; -1; 32767].
Proof. reflexivity. Qed.

(** ** Resampler *)

Section ResamplerLaws.

Variable resample : Resampler.

Lemma tobytes_length (a : list Z) : length (Np.tobytes a) = (2 * length a)%nat.
Proof.
  induction a as [|z a IH]; simpl; [reflexivity | rewrite IH; lia].
Qed.

Lemma resample_other_rate (buf : bytes) (src tgt n : Z) (y : list Q) :
  src <> tgt ->
  number_of_samples buf src tgt = Ok n ->
  resample buf n = Ok y ->
  _resample_audio resample buf src tgt = Ok (Np.tobytes (map Np.astype_int16 y)).
Proof.
  intros Hne Hn Hy. unfold _resample_audio.
  destruct (Z.eqb_spec src tgt) as [E|_]; [contradiction|].
  rewrite Hn, Hy. reflexivity.
Qed.

(** Whatever the float, the cast lands in the signed 16-bit range: that is
    the element type of the result. *)
Lemma astype_int16_range (x : Q) : -32768 <= Np.astype_int16 x <= 32767.
Proof.
  unfold Np.astype_int16, Np.wrap_int16.
  pose proof (Z.mod_pos_bound (Np.Qtrunc x + 32768) 65536 eq_refl).
  destruct ((-2147483648 <=? Np.Qtrunc x) && (Np.Qtrunc x <=? 2147483647)); lia.
Qed.

(** A value whose integer part lies above full scale is not held at 32767:
    it comes out 65536 lower, as a negative sample. *)
Lemma astype_int16_wraps (x : Q) :
  32768 <= Np.Qtrunc x < 98304 -> Np.astype_int16 x = Np.Qtrunc x - 65536.
Proof.
  intros H. unfold Np.astype_int16, Np.wrap_int16.
  replace ((-2147483648 <=? Np.Qtrunc x) && (Np.Qtrunc x <=? 2147483647)) with true
    by (symmetry; apply andb_true_intro; split; apply Z.leb_le; lia).
  rewrite <- (Z.mod_unique (Np.Qtrunc x + 32768) 65536 1 (Np.Qtrunc x - 32768)); lia.
Qed.

(** C7. With equal source and target rates the buffer comes back as it was
    given, whatever the buffer and the rate. *)
Theorem resample_identity (buf : bytes) (r : Z) :
  _resample_audio resample buf r r = Ok buf.
Proof.
  unfold _resample_audio. rewrite Z.eqb_refl. reflexivity.
Qed.

(** C3. When the rates differ, the count is computed from the byte length
    and the resampler is called on the raw bytes.  When the resampler refuses
    them, as scipy does with a [bytes] object, its exception is what
    [_resample_audio] gives: no buffer comes back, so there is no length to
    compare with the count. *)
Theorem resample_refused_has_no_length (buf : bytes) (src tgt n : Z) (e : exn) :
  src <> tgt ->
  number_of_samples buf src tgt = Ok n ->
  resample buf n = Raise e ->
  _resample_audio resample buf src tgt = Raise e /\
  forall out, _resample_audio resample buf src tgt <> Ok out.
Proof.
  intros Hne Hn He.
  assert (E : _resample_audio resample buf src tgt = Raise e).
  { unfold _resample_audio.
    destruct (Z.eqb_spec src tgt) as [Heq|_]; [contradiction|].
    rewrite Hn, He. reflexivity. }
  split; [exact E|].
  intros out H. rewrite E in H. discriminate H.
Qed.


End ResamplerLaws.

Lemma resample_refused_has_no_length_witness :
  number_of_samples (repeat x00 2048) 48000 24000 = Ok 1024 /\
  _resample_audio scipy_resample_bytes (repeat x00 2048) 48000 24000 = Raise IndexError /\
  forall out, _resample_audio scipy_resample_bytes (repeat x00 2048) 48000 24000 <> Ok out.
Proof.
  split; [reflexivity|].
  apply (resample_refused_has_no_length scipy_resample_bytes (repeat x00 2048)
           48000 24000 1024 IndexError).
  - lia.
  - reflexivity.
  - reflexivity.
Defined.


(** ** Mixer *)

Lemma add_rows_length (a b : list Z) :
  length b = length a -> length (Np.add_rows a b) = length a.
Proof.
  revert b; induction a as [|x a IH]; intros [|y b] H; simpl in *; try discriminate.
  - reflexivity.
  - f_equal. apply IH. lia.
Qed.

Lemma fold_add_rows_length (rest : list (list Z)) (a : list Z) :
  Forall (fun b => length b = length a) rest ->
  length (fold_left Np.add_rows rest a) = length a.
Proof.
  revert a; induction rest as [|b rest IH]; intros a H; simpl.
  - reflexivity.
  - inversion H as [|? ? Hb Hrest]; subst.
    rewrite IH.
    + now apply add_rows_length.
    + rewrite add_rows_length by assumption. exact Hrest.
Qed.

Lemma same_length_forallb (a : list Z) (rest : list (list Z)) :
  forallb (fun b => Nat.eqb (length b) (length a)) rest = true <->
  Forall (fun b => length b = length a) rest.
Proof.
  rewrite forallb_forall, Forall_forall.
  split; intros H b Hb; specialize (H b Hb); now apply Nat.eqb_eq.
Qed.

(** C8. Mixing an empty list of buffers gives a buffer of length zero; no
    exception is raised. *)
Theorem mix_empty :
  exists out, _mix_audio_chunks [] = Ok out /\ length out = 0%nat.
Proof.
  exists []. split; reflexivity.
Qed.

(** C4, as the code has it.  The mixer never truncates.  For a non-empty
    list of buffers it returns a result exactly when all buffers have the
    length of the first one, and the result then has that length; when some
    buffer has another length it raises [ValueError]. *)
Theorem mix_needs_equal_lengths (a : list Z) (rest : list (list Z)) :
  (Forall (fun b => length b = length a) rest ->
   exists out, _mix_audio_chunks (a :: rest) = Ok out /\ length out = length a) /\
  (~ Forall (fun b => length b = length a) rest ->
   _mix_audio_chunks (a :: rest) = Raise ValueError).
Proof.
  unfold _mix_audio_chunks, Np.sum_axis0.
  destruct (forallb (fun b => Nat.eqb (length b) (length a)) rest) eqn:E.
  - apply same_length_forallb in E. split.
    + intros _. eexists. split; [reflexivity|].
      rewrite length_map. now apply fold_add_rows_length.
    + intros H. contradiction.
  - split.
    + intros H. apply same_length_forallb in H. congruence.
    + reflexivity.
Qed.

Lemma mix_needs_equal_lengths_witness :
  (exists out, _mix_audio_chunks [[1000; -7]; [1000; 8]] = Ok out /\ length out = 2%nat) /\
  _mix_audio_chunks [[1000; -7]; [1000]] = Raise ValueError.
Proof.
  split.
  - apply (mix_needs_equal_lengths [1000; -7] [[1000; 8]]).
    repeat constructor.
  - apply (mix_needs_equal_lengths [1000; -7] [[1000]]).
    intros H. inversion H as [|? ? Hb _]. discriminate Hb.
Defined.

(** C4, as stated, fails: buffers of length 10 and 12 are not cut to
    length 10; the call raises. *)
Lemma mix_10_12_raises :
  _mix_audio_chunks [repeat 0 10; repeat 0 12] = Raise ValueError /\
  ~ (exists out, _mix_audio_chunks [repeat 0 10; repeat 0 12] = Ok out /\ length out = 10%nat).
Proof.
  split; [reflexivity|].
  intros [out [H _]]. discriminate H.
Qed.

(** ** Lifecycle *)

Ltac run_method :=
  unfold bind, call, modify, get, getattr, ret, raise, try_except; simpl.

Section Preservation.

Context {B : Type} (f : Streamer -> B).

Lemma preserves_ret {A : Type} (a : A) : preserves f (ret a).
Proof. intros self tr. reflexivity. Qed.

Lemma preserves_raise {A : Type} (e : exn) : preserves f (@raise A e).
Proof. intros self tr. reflexivity. Qed.

Lemma preserves_get : preserves f get.
Proof. intros self tr. reflexivity. Qed.

Lemma preserves_call {A : Type} (g : trace -> result A) (e : event) : preserves f (call g e).
Proof. intros self tr. reflexivity. Qed.

Lemma preserves_getattr {A : Type} (field : Streamer -> option A) :
  preserves f (getattr field).
Proof. intros self tr. unfold object_after, getattr. now destruct (field self). Qed.

Lemma preserves_modify (g : Streamer -> Streamer) :
  (forall self, f (g self) = f self) -> preserves f (modify g).
Proof. intros H self tr. apply H. Qed.

Lemma preserves_bind {A C : Type} (m : M A) (k : A -> M C) :
  preserves f m -> (forall a, preserves f (k a)) -> preserves f (bind m k).
Proof.
  intros Hm Hk self tr. specialize (Hm self tr).
  unfold object_after, bind in *.
  destruct (m self tr) as [[[a|e] self'] tr']; simpl in *.
  - rewrite <- Hm. apply Hk.
  - exact Hm.
Qed.

Lemma preserves_try_except {A : Type} (body handler : M A) (cls : exn) :
  preserves f body -> preserves f handler -> preserves f (try_except body cls handler).
Proof.
  intros Hb Hh self tr. specialize (Hb self tr).
  unfold object_after, try_except in *.
  destruct (body self tr) as [[[a|e] self'] tr']; simpl in *.
  - exact Hb.
  - destruct (exn_eqb e cls); simpl.
    + rewrite <- Hb. apply Hh.
    + exact Hb.
Qed.

End Preservation.

Create HintDb preserve.
#[local] Hint Resolve preserves_ret preserves_raise preserves_get preserves_call
  preserves_getattr preserves_bind preserves_try_except : preserve.

Ltac preserve :=
  repeat first
    [ apply preserves_bind; [|intro]
    | apply preserves_try_except
    | apply preserves_modify; intro; reflexivity
    | solve [auto with preserve] ].

Section Lifecycle.

Variable h : Host.

Lemma aenter_preserves {B : Type} (f : Streamer -> B) :
  (forall v self, f (set_audio v self) = f self) ->
  (forall v self, f (set_original_sample_rate v self) = f self) ->
  (forall v self, f (set_stream v self) = f self) ->
  (forall v self, f (set_streaming v self) = f self) ->
  preserves f (__aenter__ h).
Proof.
  intros Ha Hr Hs Hf. unfold __aenter__.
  repeat first
    [ apply preserves_bind; [|intro]
    | apply preserves_try_except
    | apply preserves_modify; intro; solve [apply Ha | apply Hr | apply Hs | apply Hf]
    | solve [auto with preserve] ].
Qed.

Lemma aenter_keeps_lists (self : Streamer) (tr : trace) :
  device_indices (object_after (__aenter__ h self tr)) = device_indices self /\
  streams (object_after (__aenter__ h self tr)) = streams self /\
  original_sample_rates (object_after (__aenter__ h self tr)) = original_sample_rates self.
Proof.
  repeat split; apply aenter_preserves; reflexivity.
Qed.

Lemma close_streams_preserves {B : Type} (f : Streamer -> B) (l : list (option Stream)) :
  preserves f (close_streams h l).
Proof.
  induction l as [|[s|] l IH]; simpl.
  - apply preserves_ret.
  - preserve.
  - exact IH.
Qed.

Lemma aexit_stops_streaming (self : Streamer) (tr : trace) :
  streaming (object_after (__aexit__ h self tr)) = false.
Proof.
  unfold __aexit__, object_after.
  unfold bind at 1. simpl.
  assert (P : preserves streaming
                (self0 <- get ;;
                 close_streams h (streams self0) ;;
                 modify (set_streams []) ;;
                 self1 <- get ;;
                 match audio self1 with
                 | Some _ => call (terminate h) EvTerminate ;; modify (set_audio None)
                 | None => ret tt
                 end)).
  { preserve.
    - apply close_streams_preserves.
    - match goal with |- context [audio ?x] => destruct (audio x) end; preserve. }
  apply (P (set_streaming false self) tr).
Qed.

Lemma no_pairs_multi (self : Streamer) (tr : trace) :
  streams self = [] ->
  multi_channel_cycle h self tr = (if streaming self then Skip else Return, tr).
Proof.
  intros E. unfold multi_channel_cycle. rewrite E.
  destruct (streaming self); [|reflexivity].
  destruct (device_indices self); reflexivity.
Qed.

Lemma no_pairs_single (self : Streamer) (tr : trace) :
  streams self = [] ->
  single_channel_cycle h self tr = (if streaming self then Skip else Return, tr).
Proof.
  intros E. unfold single_channel_cycle. rewrite E.
  destruct (streaming self); [|reflexivity].
  destruct (device_indices self); reflexivity.
Qed.

Lemma anext_spins {A : Type} (cycle : Streamer -> trace -> gen_step A * trace)
    (self : Streamer) (tr : trace) :
  cycle self tr = (Skip, tr) ->
  forall fuel, anext cycle fuel self tr = (Running, tr).
Proof.
  intros E fuel. induction fuel as [|fuel IH]; simpl; [reflexivity|].
  rewrite E. exact IH.
Qed.

(** C1. Take a streamer as [__init__] builds it, whether or not a
    [device_index] attribute was then assigned to it, and run [__aenter__].
    Whatever the host does, [device_indices], [streams] and
    [original_sample_rates] are empty afterwards; and if the streaming flag is
    set, a request for the next item of either generator is still running
    after any number of loop turns, without an item and without a host
    call. *)
Theorem lists_stay_empty (sample_rate channels chunk : Z) (d : option Z) (tr : trace) :
  let self' := object_after
                 (__aenter__ h (set_device_index d (__init__ sample_rate channels chunk)) tr) in
  device_indices self' = [] /\
  streams self' = [] /\
  original_sample_rates self' = [] /\
  (streaming self' = true ->
   forall fuel tr1,
     multi_channel_gen h fuel self' tr1 = (Running, tr1) /\
     single_channel_gen h fuel self' tr1 = (Running, tr1)).
Proof.
  intros self'.
  destruct (aenter_keeps_lists (set_device_index d (__init__ sample_rate channels chunk)) tr)
    as [Hd [Hs Hr]].
  fold self' in Hd, Hs, Hr. simpl in Hd, Hs, Hr.
  split; [exact Hd | split; [exact Hs | split; [exact Hr | intros Hst fuel tr1; split]]].
  - apply anext_spins. rewrite no_pairs_multi by assumption. now rewrite Hst.
  - apply anext_spins. rewrite no_pairs_single by assumption. now rewrite Hst.
Qed.

(** C10. Once the streaming flag is false, the first loop turn of either
    generator ends it: the request for the next item reports the end of the
    sequence, with no item, no exception and no host call. *)
Theorem stopped_generators_are_exhausted (self : Streamer) (tr : trace) (fuel : nat) :
  streaming self = false ->
  multi_channel_gen h (S fuel) self tr = (Exhausted, tr) /\
  single_channel_gen h (S fuel) self tr = (Exhausted, tr).
Proof.
  intros E. unfold multi_channel_gen, single_channel_gen. simpl.
  unfold multi_channel_cycle, single_channel_cycle. rewrite E. split; reflexivity.
Qed.

(** C5. [__init__] creates no [device_index] attribute.  Entering a
    streamer as it built it, on a host where [PyAudio()] succeeds, raises
    [AttributeError], not [InvalidDeviceIndexError]; the streaming flag stays
    false and no stream is opened. *)
Theorem aenter_after_init_raises_AttributeError
    (sample_rate channels chunk : Z) (tr : trace) (a : PyAudio) :
  pyaudio_new h tr = Ok a ->
  __aenter__ h (__init__ sample_rate channels chunk) tr
  = (Raise AttributeError,
     set_audio (Some a) (__init__ sample_rate channels chunk),
     tr ++ [EvPyAudio]).
Proof.
  intros E. unfold __aenter__. run_method. rewrite E. reflexivity.
Qed.

(** When a [device_index] attribute was assigned from outside and the host
    answers the lookup with [IndexError], entering does raise
    [InvalidDeviceIndexError], with the flag unset and nothing opened. *)
Lemma aenter_invalid_index (self : Streamer) (tr : trace) (a : PyAudio) (i : Z) :
  pyaudio_new h tr = Ok a ->
  device_index self = Some i ->
  get_device_info_by_index h (tr ++ [EvPyAudio]) i = Raise IndexError ->
  __aenter__ h self tr
  = (Raise InvalidDeviceIndexError, set_audio (Some a) self,
     tr ++ [EvPyAudio] ++ [EvDeviceInfo i]).
Proof.
  intros E Hi Hinfo. unfold __aenter__. run_method.
  rewrite E. simpl. rewrite Hi. simpl. rewrite Hinfo. simpl.
  now rewrite <- app_assoc.
Qed.

End Lifecycle.

Lemma lists_stay_empty_witness :
  let self' := object_after (__aenter__ lab_host (set_device_index (Some 2) fresh) []) in
  streaming self' = true /\
  multi_channel_gen lab_host 1000 self' [] = (Running, []) /\
  single_channel_gen lab_host 1000 self' [] = (Running, []).
Proof.
  intros self'. split; [reflexivity|].
  apply (lists_stay_empty lab_host 24000 1 1024 (Some 2) []).
  reflexivity.
Defined.

Lemma stopped_generators_are_exhausted_witness :
  let self' := object_after (__aexit__ lab_host two_devices []) in
  streaming self' = false /\
  multi_channel_gen lab_host 1 self' [] = (Exhausted, []) /\
  single_channel_gen lab_host 1 self' [] = (Exhausted, []).
Proof.
  intros self'. split; [reflexivity|].
  apply (stopped_generators_are_exhausted lab_host self' [] 0).
  reflexivity.
Defined.

Lemma aenter_after_init_raises_AttributeError_witness :
  __aenter__ lab_host fresh []
  = (Raise AttributeError, set_audio (Some PyAudioInstance) fresh, [EvPyAudio]).
Proof.
  apply (aenter_after_init_raises_AttributeError lab_host 24000 1 1024 [] PyAudioInstance).
  reflexivity.
Defined.

Example aenter_out_of_range_index :
  __aenter__ lab_host (set_device_index (Some 99) fresh) []
  = (Raise InvalidDeviceIndexError,
     set_audio (Some PyAudioInstance) (set_device_index (Some 99) fresh),
     [EvPyAudio; EvDeviceInfo 99]).
Proof. reflexivity. Qed.

Example aenter_valid_index :
  __aenter__ lab_host (set_device_index (Some 2) fresh) []
  = (Ok tt,
     set_streaming true
       (set_stream (Some 2%nat)
          (set_original_sample_rate (Some 48000)
             (set_audio (Some PyAudioInstance) (set_device_index (Some 2) fresh)))),
     [EvPyAudio; EvDeviceInfo 2; EvOpen 2 48000]).
Proof. reflexivity. Qed.

(** ** Teardown *)

Section Teardown.

Variable h : Host.





End Teardown.



(** ** Read cycles *)

Section ReadCycle.

Variables (h : Host) (self : Streamer).

Lemma read_resampled_trace (tr : trace) (d : Z) (s : option Stream) :
  snd (read_resampled h self tr d s) = snd (read_stream h self tr s).
Proof.
  unfold read_resampled.
  destruct (read_stream h self tr s) as [[data|e] tr']; simpl; [|reflexivity].
  destruct (dict_get (original_sample_rates self) d); reflexivity.
Qed.

Lemma read_resampled_needs_read (tr : trace) (d : Z) (s : option Stream) :
  is_ok (fst (read_resampled h self tr d s)) = true ->
  is_ok (fst (read_stream h self tr s)) = true.
Proof.
  unfold read_resampled.
  destruct (read_stream h self tr s) as [[data|e] tr']; simpl; auto.
Qed.

Lemma read_array_trace (tr : trace) (d : Z) (s : option Stream) :
  snd (read_array h self tr d s) = snd (read_resampled h self tr d s).
Proof.
  unfold read_array.
  destruct (read_resampled h self tr d s) as [[data|e] tr']; reflexivity.
Qed.

Lemma read_array_needs_resampled (tr : trace) (d : Z) (s : option Stream) :
  is_ok (fst (read_array h self tr d s)) = true ->
  is_ok (fst (read_resampled h self tr d s)) = true.
Proof.
  unfold read_array.
  destruct (read_resampled h self tr d s) as [[data|e] tr']; simpl; auto.
Qed.

Lemma resampled_needs_reads (pairs : list (Z * option Stream)) (tr : trace) :
  existsb is_ok (cycle_outcomes (read_resampled h self) pairs tr) = true ->
  existsb is_ok (cycle_outcomes (fun tr _ s => read_stream h self tr s) pairs tr) = true.
Proof.
  revert tr; induction pairs as [|[d s] pairs IH]; intros tr; simpl; [auto|].
  pose proof (read_resampled_trace tr d s) as Ht.
  pose proof (read_resampled_needs_read tr d s) as Hr.
  destruct (read_resampled h self tr d s) as [r tr1].
  destruct (read_stream h self tr s) as [r0 tr0].
  simpl in *. subst tr1. rewrite !orb_true_iff.
  intros [H|H]; [left; now apply Hr | right; now apply IH].
Qed.

Lemma arrays_need_resampled (pairs : list (Z * option Stream)) (tr : trace) :
  existsb is_ok (cycle_outcomes (read_array h self) pairs tr) = true ->
  existsb is_ok (cycle_outcomes (read_resampled h self) pairs tr) = true.
Proof.
  revert tr; induction pairs as [|[d s] pairs IH]; intros tr; simpl; [auto|].
  pose proof (read_array_trace tr d s) as Ht.
  pose proof (read_array_needs_resampled tr d s) as Hr.
  destruct (read_array h self tr d s) as [r tr1].
  destruct (read_resampled h self tr d s) as [r0 tr0].
  simpl in *. subst tr1. rewrite !orb_true_iff.
  intros [H|H]; [left; now apply Hr | right; now apply IH].
Qed.

Lemma truthy_dict_set {V : Type} (d : dict V) (k : Z) (v : V) :
  truthy (dict_set d k v) = true.
Proof.
  destruct d as [|[k' v'] d]; simpl; [reflexivity|].
  destruct (k' =? k); reflexivity.
Qed.

Lemma truthy_append {A : Type} (l : list A) (x : A) : truthy (l ++ [x]) = true.
Proof. destruct l; reflexivity. Qed.

Lemma multi_channel_loop_truthy (pairs : list (Z * option Stream))
    (audio_data : dict bytes) (tr : trace) :
  truthy (fst (multi_channel_loop h self pairs audio_data tr))
  = truthy audio_data || existsb is_ok (cycle_outcomes (read_resampled h self) pairs tr).
Proof.
  revert audio_data tr; induction pairs as [|[d s] pairs IH]; intros audio_data tr; simpl.
  - now rewrite orb_false_r.
  - destruct (read_resampled h self tr d s) as [[data|e] tr']; simpl.
    + rewrite IH, truthy_dict_set, orb_true_r. reflexivity.
    + apply IH.
Qed.

Lemma single_channel_loop_truthy (pairs : list (Z * option Stream))
    (audio_arrays : list (list Z)) (tr : trace) :
  truthy (fst (single_channel_loop h self pairs audio_arrays tr))
  = truthy audio_arrays || existsb is_ok (cycle_outcomes (read_array h self) pairs tr).
Proof.
  revert audio_arrays tr; induction pairs as [|[d s] pairs IH]; intros audio_arrays tr; simpl.
  - now rewrite orb_false_r.
  - destruct (read_array h self tr d s) as [[a|e] tr']; simpl.
    + rewrite IH, truthy_append, orb_true_r. reflexivity.
    + apply IH.
Qed.

Lemma multi_cycle_yields (tr : trace) :
  streaming self = true ->
  ((exists frame, fst (multi_channel_cycle h self tr) = Yield frame) <->
   existsb is_ok (cycle_resampled h self tr) = true) /\
  (existsb is_ok (cycle_resampled h self tr) = false ->
   exists tr', multi_channel_cycle h self tr = (Skip, tr')).
Proof.
  intros Hs. unfold multi_channel_cycle, cycle_resampled. rewrite Hs.
  pose proof (multi_channel_loop_truthy
                (combine (device_indices self) (streams self)) [] tr) as Ht.
  destruct (multi_channel_loop h self (combine (device_indices self) (streams self)) [] tr)
    as [audio_data tr'].
  simpl in Ht. rewrite <- Ht.
  destruct (truthy audio_data); simpl; split.
  - split; [reflexivity | intros _; now eexists].
  - discriminate.
  - split; [intros [frame H]; discriminate H | discriminate].
  - intros _. now eexists.
Qed.

Lemma single_cycle_yields (tr : trace) :
  streaming self = true ->
  ((exists chunk, fst (single_channel_cycle h self tr) = Yield chunk) <->
   existsb is_ok (cycle_arrays h self tr) = true /\
   is_ok (_mix_audio_chunks (collected_arrays h self tr)) = true) /\
  (existsb is_ok (cycle_arrays h self tr) = false ->
   exists tr', single_channel_cycle h self tr = (Skip, tr')).
Proof.
  intros Hs. unfold single_channel_cycle, cycle_arrays, collected_arrays. rewrite Hs.
  pose proof (single_channel_loop_truthy
                (combine (device_indices self) (streams self)) [] tr) as Ht.
  destruct (single_channel_loop h self (combine (device_indices self) (streams self)) [] tr)
    as [audio_arrays tr'].
  simpl in Ht. rewrite <- Ht. simpl fst.
  destruct (truthy audio_arrays); simpl; split.
  - destruct (_mix_audio_chunks audio_arrays) as [mixed|e]; simpl.
    + split; [intros _; now split | intros _; now eexists].
    + split; [intros [chunk H]; discriminate H | intros [_ H]; discriminate H].
  - discriminate.
  - split; [intros [chunk H]; discriminate H | intros [H _]; discriminate H].
  - intros _. now eexists.
Qed.

Lemma anext_after_skip {A : Type} (cycle : Streamer -> trace -> gen_step A * trace)
    (tr tr' : trace) (fuel : nat) :
  cycle self tr = (Skip, tr') ->
  anext cycle (S fuel) self tr = anext cycle fuel self tr'.
Proof.
  intros E. simpl. now rewrite E.
Qed.

Lemma not_true_false (b : bool) : (b = true -> False) -> b = false.
Proof. destruct b; [intros H; now destruct H | reflexivity]. Qed.

(** C9, as the code has it.  While streaming, a cycle of
    [multi_channel_gen] yields exactly when the inner [try] block of at
    least one device ran to its end, that is the read, the lookup of the
    native rate and the resampling all succeeded.  A cycle of
    [single_channel_gen] yields exactly when that holds with the decoding to
    16-bit samples included and the mixer accepts the collected arrays.  When
    every read of the cycle fails, no item is produced and the loop goes on
    with the next cycle. *)
Theorem cycle_yields_iff_step_succeeds (tr : trace) :
  streaming self = true ->
  ((exists frame, fst (multi_channel_cycle h self tr) = Yield frame) <->
   existsb is_ok (cycle_resampled h self tr) = true) /\
  ((exists chunk, fst (single_channel_cycle h self tr) = Yield chunk) <->
   existsb is_ok (cycle_arrays h self tr) = true /\
   is_ok (_mix_audio_chunks (collected_arrays h self tr)) = true) /\
  (existsb is_ok (cycle_reads h self tr) = false ->
   (exists tr',
      multi_channel_cycle h self tr = (Skip, tr') /\
      forall fuel, multi_channel_gen h (S fuel) self tr = multi_channel_gen h fuel self tr') /\
   (exists tr',
      single_channel_cycle h self tr = (Skip, tr') /\
      forall fuel, single_channel_gen h (S fuel) self tr = single_channel_gen h fuel self tr')).
Proof.
  intros Hs.
  destruct (multi_cycle_yields tr Hs) as [Hm Hm0].
  destruct (single_cycle_yields tr Hs) as [Hsi Hsi0].
  split; [exact Hm | split; [exact Hsi | intros Hr; split]].
  - assert (E : existsb is_ok (cycle_resampled h self tr) = false).
    { apply not_true_false. intros T.
      apply resampled_needs_reads in T. unfold cycle_reads in Hr. congruence. }
    destruct (Hm0 E) as [tr' Htr']. exists tr'. split; [exact Htr'|].
    intros fuel. now apply anext_after_skip.
  - assert (E : existsb is_ok (cycle_arrays h self tr) = false).
    { apply not_true_false. intros T.
      apply arrays_need_resampled, resampled_needs_reads in T.
      unfold cycle_reads in Hr. congruence. }
    destruct (Hsi0 E) as [tr' Htr']. exists tr'. split; [exact Htr'|].
    intros fuel. now apply anext_after_skip.
Qed.

End ReadCycle.

Lemma cycle_yields_iff_step_succeeds_witness :
  streaming two_devices = true /\
  (exists frame, fst (multi_channel_cycle lab_host two_devices []) = Yield frame) /\
  (exists chunk, fst (single_channel_cycle lab_host two_devices []) = Yield chunk) /\
  (exists tr', multi_channel_cycle deaf_host two_devices [] = (Skip, tr')) /\
  (exists tr', single_channel_cycle deaf_host two_devices [] = (Skip, tr')).
Proof.
  pose proof (cycle_yields_iff_step_succeeds lab_host two_devices [] eq_refl) as [Hm [Hs _]].
  pose proof (cycle_yields_iff_step_succeeds deaf_host two_devices [] eq_refl) as [_ [_ Hd]].
  split; [reflexivity|].
  split; [apply Hm; reflexivity|].
  split; [apply Hs; split; reflexivity|].
  destruct (Hd eq_refl) as [[tr1 [H1 _]] [tr2 [H2 _]]].
  split; [exists tr1; exact H1 | exists tr2; exact H2].
Defined.

Example two_devices_frame :
  multi_channel_cycle lab_host two_devices []
  = (Yield [(2, repeat x00 8); (3, repeat x00 8)], [EvRead 2%nat; EvRead 3%nat]).
Proof. reflexivity. Qed.

Example two_devices_mixed :
  single_channel_cycle lab_host two_devices []
  = (Yield (repeat x00 8), [EvRead 2%nat; EvRead 3%nat]).
Proof. reflexivity. Qed.

(** C9, as stated, fails: both reads of the cycle succeed, yet no item is
    yielded, because the lookup of the native rate raises [KeyError] in the
    same [try] block (first host), or because the resampler raises there
    (second host). *)
Lemma reads_succeed_nothing_yielded :
  cycle_reads lab_host two_devices_no_rates [] = [Ok (repeat x00 8); Ok (repeat x00 8)] /\
  fst (multi_channel_cycle lab_host two_devices_no_rates []) = Skip /\
  fst (single_channel_cycle lab_host two_devices_no_rates []) = Skip /\
  cycle_reads refusing_host two_devices [] = [Ok (repeat x00 8); Ok (repeat x00 8)] /\
  fst (multi_channel_cycle refusing_host two_devices []) = Skip /\
  fst (single_channel_cycle refusing_host two_devices []) = Skip.
Proof.
  repeat split; reflexivity.
Qed.

(** ** Sample encoding *)

Lemma Z_of_byte_range (b : byte) : 0 <= Np.Z_of_byte b <= 255.
Proof.
  unfold Np.Z_of_byte. pose proof (Byte.to_N_bounded b). lia.
Qed.

Lemma Z_of_byte_of_Z (z : Z) : Np.Z_of_byte (Np.byte_of_Z z) = z mod 256.
Proof.
  unfold Np.Z_of_byte, Np.byte_of_Z.
  pose proof (Z.mod_pos_bound z 256 eq_refl) as Hb.
  destruct (Byte.of_N (Z.to_N (z mod 256))) as [b|] eqn:E.
  - apply Byte.to_of_N in E. rewrite E. apply Z2N.id. lia.
  - apply Byte.of_N_None_iff in E. lia.
Qed.

Lemma byte_of_Z_of_byte (b : byte) (k : Z) :
  Np.byte_of_Z (Np.Z_of_byte b + 256 * k) = b.
Proof.
  unfold Np.byte_of_Z.
  pose proof (Z_of_byte_range b) as Hb.
  replace ((Np.Z_of_byte b + 256 * k) mod 256) with (Np.Z_of_byte b).
  - unfold Np.Z_of_byte. rewrite N2Z.id, Byte.of_to_N. reflexivity.
  - rewrite Z.mul_comm, Z.mod_add by lia. symmetry. apply Z.mod_small. lia.
Qed.

Lemma wrap_int16_range (z : Z) : in_int16 (Np.wrap_int16 z).
Proof.
  unfold in_int16, Np.wrap_int16.
  pose proof (Z.mod_pos_bound (z + 32768) 65536 eq_refl). lia.
Qed.

Lemma wrap_int16_id (z : Z) : in_int16 z -> Np.wrap_int16 z = z.
Proof.
  unfold in_int16, Np.wrap_int16. intros H.
  rewrite Z.mod_small; lia.
Qed.

Lemma decode_encode_sample (z : Z) :
  in_int16 z ->
  Np.wrap_int16 (Np.Z_of_byte (Np.byte_of_Z z) + 256 * Np.Z_of_byte (Np.byte_of_Z (z / 256))) = z.
Proof.
  unfold in_int16. intros H. rewrite !Z_of_byte_of_Z. unfold Np.wrap_int16.
  Z.to_euclidean_division_equations. lia.
Qed.

Lemma encode_decode_sample (lo hi : byte) :
  Np.int16_tobytes (Np.wrap_int16 (Np.Z_of_byte lo + 256 * Np.Z_of_byte hi)) = [lo; hi].
Proof.
  pose proof (Z_of_byte_range lo) as Hlo. pose proof (Z_of_byte_range hi) as Hhi.
  unfold Np.int16_tobytes, Np.wrap_int16.
  set (w := Np.Z_of_byte lo + 256 * Np.Z_of_byte hi).
  assert (E1 : exists k, (w + 32768) mod 65536 - 32768 = Np.Z_of_byte lo + 256 * k).
  { exists (((w + 32768) mod 65536 - 32768 - Np.Z_of_byte lo) / 256).
    subst w. Z.to_euclidean_division_equations. lia. }
  assert (E2 : exists k, ((w + 32768) mod 65536 - 32768) / 256 = Np.Z_of_byte hi + 256 * k).
  { exists ((((w + 32768) mod 65536 - 32768) / 256 - Np.Z_of_byte hi) / 256).
    subst w. Z.to_euclidean_division_equations. lia. }
  destruct E1 as [k1 E1]. destruct E2 as [k2 E2].
  rewrite E2, E1, !byte_of_Z_of_byte. reflexivity.
Qed.

(** Encoding 16-bit samples to bytes and decoding them gives the samples
    back. *)
Theorem frombuffer_tobytes (a : list Z) :
  Forall in_int16 a -> Np.frombuffer_int16 (Np.tobytes a) = Ok a.
Proof.
  induction 1 as [|z a Hz _ IH]; simpl; [reflexivity|].
  rewrite IH, decode_encode_sample by assumption. reflexivity.
Qed.

Lemma frombuffer_tobytes_witness :
  Np.frombuffer_int16 (Np.tobytes [-32768; -1; 0; 255; 256; 32767])
  = Ok [-32768; -1; 0; 255; 256; 32767].
Proof.
  apply (frombuffer_tobytes [-32768; -1; 0; 255; 256; 32767]).
  repeat constructor; unfold in_int16; lia.
Defined.

Lemma frombuffer_cons2 (lo hi : byte) (b : bytes) :
  Np.frombuffer_int16 (lo :: hi :: b)
  = match Np.frombuffer_int16 b with
    | Ok l => Ok (Np.wrap_int16 (Np.Z_of_byte lo + 256 * Np.Z_of_byte hi) :: l)
    | Raise e => Raise e
    end.
Proof. reflexivity. Qed.

Lemma pairs_induction (P : bytes -> Prop) :
  P [] -> (forall x, P [x]) -> (forall x y b, P b -> P (x :: y :: b)) ->
  forall b, P b.
Proof.
  intros H0 H1 H2.
  assert (H : forall b, P b /\ forall x, P (x :: b)).
  { induction b as [|y b [IHb IHxb]]; split; auto. }
  intros b. apply H.
Qed.

(** Decoding a byte buffer to 16-bit samples succeeds exactly when its
    length is even; it then gives half as many samples, each within the
    signed 16-bit range, and encoding them gives the buffer back.  A buffer
    of odd length raises [ValueError]. *)
Theorem frombuffer_even_odd (b : bytes) :
  (Nat.even (length b) = true ->
   exists l, Np.frombuffer_int16 b = Ok l /\
             (2 * length l)%nat = length b /\
             Forall in_int16 l /\
             Np.tobytes l = b) /\
  (Nat.even (length b) = false -> Np.frombuffer_int16 b = Raise ValueError).
Proof.
  induction b as [| x | x y b [IHe IHo]] using pairs_induction.
  - split; [intros _ | discriminate].
    exists []. repeat split. constructor.
  - split; [discriminate | reflexivity].
  - rewrite frombuffer_cons2. split.
    + intros He. destruct (IHe He) as [l [El [Hlen [Hr Hb]]]].
      rewrite El. eexists. split; [reflexivity|]. repeat split.
      * simpl. simpl in Hlen. lia.
      * constructor; [apply wrap_int16_range | exact Hr].
      * change (Np.tobytes (?z :: l)) with (Np.int16_tobytes z ++ Np.tobytes l).
        rewrite encode_decode_sample, Hb. reflexivity.
    + intros Ho. rewrite (IHo Ho). reflexivity.
Qed.

Lemma frombuffer_even_odd_witness :
  (exists l, Np.frombuffer_int16 [x40; x9c; xff; x7f] = Ok l /\
             (2 * length l)%nat = 4%nat /\
             Forall in_int16 l /\
             Np.tobytes l = [x40; x9c; xff; x7f]) /\
  Np.frombuffer_int16 [x40; x9c; xff] = Raise ValueError.
Proof.
  split.
  - apply (proj1 (frombuffer_even_odd [x40; x9c; xff; x7f])). reflexivity.
  - apply (proj2 (frombuffer_even_odd [x40; x9c; xff])). reflexivity.
Defined.

(** ** The mixer as a truncated mean *)

Lemma add_rows_within (k : Z) (a b : list Z) :
  Forall (within k) a -> Forall in_int16 b -> Forall (within (k + 1)) (Np.add_rows a b).
Proof.
  intros Ha; revert b; induction Ha as [|x a Hx _ IH]; intros b Hb; simpl.
  - constructor.
  - destruct Hb as [|y b Hy Hb]; constructor.
    + unfold within, in_int16 in *. lia.
    + now apply IH.
Qed.

Lemma fold_add_rows_within (rest : list (list Z)) (k : Z) (a : list Z) :
  Forall (within k) a -> Forall (Forall in_int16) rest ->
  Forall (within (k + Z.of_nat (length rest))) (fold_left Np.add_rows rest a).
Proof.
  revert k a; induction rest as [|b rest IH]; intros k a Ha Hrest; simpl fold_left.
  - simpl. now rewrite Z.add_0_r.
  - inversion Hrest as [|? ? Hb Hrest']; subst.
    replace (k + Z.of_nat (length (b :: rest))) with (k + 1 + Z.of_nat (length rest))
      by (simpl length; lia).
    apply IH; [now apply add_rows_within | assumption].
Qed.

Lemma quot_within (n v : Z) : 0 < n -> within n v -> in_int16 (Z.quot v n).
Proof.
  unfold within, in_int16. intros Hn [Hlo Hhi]. split.
  - rewrite <- (Z.quot_mul (-32768) n) by lia. apply Z.quot_le_mono; lia.
  - rewrite <- (Z.quot_mul 32767 n) by lia. apply Z.quot_le_mono; lia.
Qed.

Lemma cast_of_int16 (z : Z) :
  in_int16 z ->
  (if (-2147483648 <=? z) && (z <=? 2147483647) then Np.wrap_int16 z else 0) = z.
Proof.
  intros H. rewrite (wrap_int16_id z H). unfold in_int16 in H.
  replace ((-2147483648 <=? z) && (z <=? 2147483647)) with true; [reflexivity|].
  symmetry. apply andb_true_intro. split; apply Z.leb_le; lia.
Qed.

(** The mean of [n] in-range samples, as the mixer computes it: the clip
    changes nothing and the cast keeps the integer part. *)
Lemma mix_sample_exact (p : positive) (v : Z) :
  within (Zpos p) v ->
  Np.astype_int16
    (Np.clip (inject_Z (-32768)) (inject_Z 32767) (inject_Z v / inject_Z (Zpos p))%Q)
  = Z.quot v (Zpos p).
Proof.
  intros Hv. pose proof (quot_within (Zpos p) v eq_refl Hv) as Hq.
  unfold within in Hv.
  unfold Np.clip, Qmax, Qmin, GenericMinMax.gmax, GenericMinMax.gmin.
  assert (E1 : ((inject_Z v / inject_Z (Zpos p))%Q ?= inject_Z (-32768))%Q <> Lt).
  { unfold Qcompare. simpl. rewrite Z.compare_lt_iff. lia. }
  destruct ((inject_Z v / inject_Z (Zpos p))%Q ?= inject_Z (-32768))%Q eqn:C1;
    try contradiction.
  - assert (E2 : ((inject_Z v / inject_Z (Zpos p))%Q ?= inject_Z 32767)%Q <> Gt).
    { unfold Qcompare. simpl. rewrite Z.compare_gt_iff. lia. }
    destruct ((inject_Z v / inject_Z (Zpos p))%Q ?= inject_Z 32767)%Q eqn:C2;
      try contradiction;
      unfold Np.astype_int16, Np.Qtrunc; simpl; rewrite Z.mul_1_r;
      now apply cast_of_int16.
  - assert (E2 : ((inject_Z v / inject_Z (Zpos p))%Q ?= inject_Z 32767)%Q <> Gt).
    { unfold Qcompare. simpl. rewrite Z.compare_gt_iff. lia. }
    destruct ((inject_Z v / inject_Z (Zpos p))%Q ?= inject_Z 32767)%Q eqn:C2;
      try contradiction;
      unfold Np.astype_int16, Np.Qtrunc; simpl; rewrite Z.mul_1_r;
      now apply cast_of_int16.
Qed.

Lemma Forall_within_1 (a : list Z) : Forall in_int16 a -> Forall (within 1) a.
Proof.
  apply Forall_impl. unfold in_int16, within. intros; lia.
Qed.

Lemma mix_in_range_rows (a : list Z) (rest : list (list Z)) :
  Forall (Forall in_int16) (a :: rest) ->
  Forall (fun b => length b = length a) rest ->
  _mix_audio_chunks (a :: rest)
  = Ok (map (fun v => Z.quot v (Z.of_nat (S (length rest))))
            (fold_left Np.add_rows rest a)).
Proof.
  intros Hr Hlen. inversion Hr as [|? ? Ha Hrest]; subst.
  unfold _mix_audio_chunks, Np.sum_axis0.
  rewrite (proj2 (same_length_forallb a rest) Hlen).
  f_equal. apply map_ext_in. intros v Hv.
  pose proof (fold_add_rows_within rest 1 a (Forall_within_1 a Ha) Hrest) as Hb.
  rewrite Forall_forall in Hb. specialize (Hb v Hv).
  change (length (a :: rest)) with (S (length rest)).
  replace (1 + Z.of_nat (length rest)) with (Z.of_nat (S (length rest))) in Hb by lia.
  destruct (Z.of_nat (S (length rest))) as [|p|p] eqn:E; try lia.
  now apply mix_sample_exact.
Qed.

(** X1. When all buffers have one length and hold 16-bit samples, every
    output sample of the mixer is the sum of the input samples at that
    position divided by the number of buffers, rounded toward zero: the
    clip never changes a value and the cast never wraps. *)
Theorem mix_is_truncated_mean (a : list Z) (rest : list (list Z)) :
  Forall (Forall in_int16) (a :: rest) ->
  Forall (fun b => length b = length a) rest ->
  _mix_audio_chunks (a :: rest)
  = Ok (map (fun v => Z.quot v (Z.of_nat (S (length rest))))
            (fold_left Np.add_rows rest a)).
Proof.
  intros Hr Hlen. now apply mix_in_range_rows.
Qed.

Lemma mix_is_truncated_mean_witness :
  _mix_audio_chunks [[3; -3; 32767; -32768]; [4; -4; 32767; -32768]]
  = Ok [3; -3; 32767; -32768].
Proof.
  apply (mix_is_truncated_mean [3; -3; 32767; -32768] [[4; -4; 32767; -32768]]).
  - repeat constructor; unfold in_int16; lia.
  - repeat constructor.
Defined.

Lemma fold_add_rows_copies (k : nat) (m : Z) (x : list Z) :
  fold_left Np.add_rows (repeat x k) (map (fun v => v * m) x)
  = map (fun v => v * (m + Z.of_nat k)) x.
Proof.
  revert m; induction k as [|k IH]; intros m; simpl repeat; simpl fold_left.
  - apply map_ext. intros v. f_equal. lia.
  - replace (Np.add_rows (map (fun v => v * m) x) x) with (map (fun v => v * (m + 1)) x).
    + rewrite IH. apply map_ext. intros v. f_equal. lia.
    + clear IH. induction x as [|v x IHx]; simpl; [reflexivity|].
      rewrite IHx. f_equal. lia.
Qed.

Lemma mix_repeat (x : list Z) (k : nat) :
  Forall in_int16 x ->
  _mix_audio_chunks (repeat x (S k)) = Ok x.
Proof.
  intros Hx. simpl repeat.
  rewrite mix_in_range_rows.
  - rewrite repeat_length.
    replace x with (map (fun v => v * 1) x) at 2
      by (rewrite <- (map_id x) at 2; apply map_ext; intros; lia).
    rewrite fold_add_rows_copies, map_map. f_equal.
    rewrite <- (map_id x) at 2. apply map_ext. intros v.
    replace (1 + Z.of_nat k) with (Z.of_nat (S k)) by lia.
    apply Z.quot_mul. lia.
  - constructor; [exact Hx|]. apply Forall_forall. intros b Hb.
    apply repeat_spec in Hb. now subst.
  - apply Forall_forall. intros b Hb. apply repeat_spec in Hb. now subst.
Qed.

(** X2. Mixing one or more copies of the same buffer of 16-bit samples
    gives that buffer back; in particular the mixer is the identity on a
    single buffer. *)
Theorem mix_of_copies (x : list Z) (k : nat) :
  Forall in_int16 x ->
  _mix_audio_chunks (repeat x (S k)) = Ok x.
Proof.
  intros Hx. now apply mix_repeat.
Qed.

Lemma mix_of_copies_witness :
  _mix_audio_chunks [repeat 1000 512; repeat 1000 512] = Ok (repeat 1000 512).
Proof.
  apply (mix_of_copies (repeat 1000 512) 1).
  apply Forall_forall. intros v Hv. apply repeat_spec in Hv. subst. unfold in_int16. lia.
Defined.

(** ** The mixer and the order of its inputs *)

Lemma add_rows_comm (a b : list Z) : Np.add_rows a b = Np.add_rows b a.
Proof.
  revert b; induction a as [|x a IH]; intros [|y b]; simpl; try reflexivity.
  rewrite IH. f_equal. lia.
Qed.

Lemma add_rows_assoc (a b c : list Z) :
  Np.add_rows (Np.add_rows a b) c = Np.add_rows a (Np.add_rows b c).
Proof.
  revert b c; induction a as [|x a IH]; intros [|y b] [|z c]; simpl; try reflexivity.
  rewrite IH. f_equal. lia.
Qed.

Lemma sum_step_swap (x y : list Z) (acc : option (list Z)) :
  sum_step x (sum_step y acc) = sum_step y (sum_step x acc).
Proof.
  destruct acc as [s|]; simpl; f_equal.
  - rewrite <- !add_rows_assoc. f_equal. apply add_rows_comm.
  - apply add_rows_comm.
Qed.

Lemma fold_sum_step_permutation (rows rows' : list (list Z)) :
  Permutation rows rows' ->
  fold_right sum_step None rows = fold_right sum_step None rows'.
Proof.
  induction 1 as [| x l l' _ IH | x y l | l l' l'' _ IH1 _ IH2]; simpl.
  - reflexivity.
  - now rewrite IH.
  - apply sum_step_swap.
  - now rewrite IH1.
Qed.

Lemma fold_add_rows_shift (rest : list (list Z)) (a b : list Z) :
  fold_left Np.add_rows rest (Np.add_rows a b) = Np.add_rows a (fold_left Np.add_rows rest b).
Proof.
  revert b; induction rest as [|c rest IH]; intros b; simpl; [reflexivity|].
  rewrite add_rows_assoc. apply IH.
Qed.

Lemma fold_sum_step_rows (rest : list (list Z)) (a : list Z) :
  fold_right sum_step None (a :: rest) = Some (fold_left Np.add_rows rest a).
Proof.
  revert a; induction rest as [|b rest IH]; intros a; [reflexivity|].
  change (fold_right sum_step None (a :: b :: rest))
    with (sum_step a (fold_right sum_step None (b :: rest))).
  rewrite IH. simpl. now rewrite fold_add_rows_shift.
Qed.

Lemma same_length_all (a : list Z) (rest : list (list Z)) :
  Forall (fun b => length b = length a) rest <->
  Forall (fun b => length b = length a) (a :: rest).
Proof.
  split; intros H; [constructor; [reflexivity | exact H] | now inversion H].
Qed.

Lemma same_length_permutation (a a' : list Z) (rest rest' : list (list Z)) :
  Permutation (a :: rest) (a' :: rest') ->
  forallb (fun b => Nat.eqb (length b) (length a)) rest
  = forallb (fun b => Nat.eqb (length b) (length a')) rest'.
Proof.
  intros HP.
  assert (D : forall (x x' : list Z) (r r' : list (list Z)),
             Permutation (x :: r) (x' :: r') ->
             Forall (fun b => length b = length x) r ->
             Forall (fun b => length b = length x') r').
  { intros x x' r r' P H. apply same_length_all in H.
    apply (Permutation_Forall P) in H.
    inversion H as [|? ? Hx' Hr']; subst.
    rewrite Hx'. exact Hr'. }
  destruct (forallb (fun b => Nat.eqb (length b) (length a)) rest) eqn:E;
    destruct (forallb (fun b => Nat.eqb (length b) (length a')) rest') eqn:E';
    try reflexivity.
  - apply same_length_forallb in E. apply (D _ _ _ _ HP) in E.
    apply same_length_forallb in E. congruence.
  - apply same_length_forallb in E'. apply (D _ _ _ _ (Permutation_sym HP)) in E'.
    apply same_length_forallb in E'. congruence.
Qed.

(** X3. The mixer does not depend on the order of its buffers: two lists
    holding the same buffers in any order give the same result, the same
    exception included. *)
Theorem mix_permutation (rows rows' : list (list Z)) :
  Permutation rows rows' ->
  _mix_audio_chunks rows = _mix_audio_chunks rows'.
Proof.
  intros HP.
  destruct rows as [|a rest]; destruct rows' as [|a' rest'].
  - reflexivity.
  - apply Permutation_nil in HP. discriminate HP.
  - apply Permutation_sym, Permutation_nil in HP. discriminate HP.
  - unfold _mix_audio_chunks, Np.sum_axis0.
    rewrite (same_length_permutation a a' rest rest' HP).
    pose proof (fold_sum_step_permutation _ _ HP) as Hs.
    rewrite !fold_sum_step_rows in Hs. injection Hs as Hs.
    rewrite Hs, (Permutation_length HP). reflexivity.
Qed.

Lemma mix_permutation_witness :
  _mix_audio_chunks [[1; 2]; [30; 40]; [500; 600]]
  = _mix_audio_chunks [[500; 600]; [1; 2]; [30; 40]].
Proof.
  apply (mix_permutation [[1; 2]; [30; 40]; [500; 600]] [[500; 600]; [1; 2]; [30; 40]]).
  apply Permutation_sym. apply (Permutation_cons_app [[1; 2]; [30; 40]] [] [500; 600]).
  simpl. apply Permutation_refl.
Defined.

(** ** The requested number of samples *)

Lemma py_round_nearest (x : Q) :
  (- (1 # 2) <= x - inject_Z (Np.py_round x) <= 1 # 2)%Q.
Proof.
  pose proof (Qfloor_le x) as Hlo. pose proof (Qlt_floor x) as Hhi.
  rewrite inject_Z_plus in Hhi. change (inject_Z 1) with 1%Q in Hhi.
  unfold Np.py_round.
  destruct (Qcompare (x - inject_Z (Qfloor x)) (1 # 2)) eqn:C.
  - apply Qeq_alt in C. destruct (Z.even (Qfloor x)).
    + lra.
    + rewrite inject_Z_plus. change (inject_Z 1) with 1%Q. lra.
  - apply Qlt_alt in C. lra.
  - apply Qgt_alt in C. rewrite inject_Z_plus. change (inject_Z 1) with 1%Q. lra.
Qed.

Lemma nearest_scaled (L s n : Z) :
  s <> 0 ->
  (- (1 # 2) <= inject_Z L / inject_Z s - inject_Z n <= 1 # 2)%Q ->
  2 * Z.abs (n * s - L) <= Z.abs s.
Proof.
  intros Hs [H1 H2].
  assert (Hx : (inject_Z L / inject_Z s * inject_Z s == inject_Z L)%Q).
  { field. intros E. apply Hs. unfold Qeq in E. simpl in E. lia. }
  set (x := (inject_Z L / inject_Z s)%Q) in *.
  assert (HQ : (inject_Z (- Z.abs s) <= inject_Z (2 * (n * s - L)) <= inject_Z (Z.abs s))%Q).
  { unfold Z.sub. rewrite !inject_Z_mult, !inject_Z_plus, !inject_Z_opp, !inject_Z_mult.
    change (inject_Z 2) with 2%Q.
    destruct (Z.abs_spec s) as [[Hp E]|[Hn E]]; rewrite E.
    - assert (P : (0 <= inject_Z s)%Q) by (rewrite <- (Zle_Qle 0); lia).
      pose proof (Qmult_le_compat_r _ _ _ H1 P) as U.
      pose proof (Qmult_le_compat_r _ _ _ H2 P) as V.
      lra.
    - rewrite inject_Z_opp.
      assert (P : (0 <= - inject_Z s)%Q) by (rewrite <- inject_Z_opp, <- (Zle_Qle 0); lia).
      pose proof (Qmult_le_compat_r _ _ _ H1 P) as U.
      pose proof (Qmult_le_compat_r _ _ _ H2 P) as V.
      lra. }
  rewrite <- !Zle_Qle in HQ. lia.
Qed.

(** X4. Take rates below 2^53 in size and a buffer with
    [len * |target|] below 2^52, where the double-precision arithmetic of the
    source and the exact quotient round to the same integer.  With a source
    rate of zero the sample count cannot be computed and [ZeroDivisionError]
    is raised.  With any other source rate the count [n] is the proportional
    length [len * target / source] rounded to a nearest integer:
    [n * source] is within half of [source] of [len * target].  When the
    source rate divides [len * target], the count is the exact quotient. *)
Theorem number_of_samples_nearest (buf : bytes) (src tgt : Z) :
  Z.abs src < 2 ^ 53 ->
  Z.abs tgt < 2 ^ 53 ->
  Z.of_nat (length buf) * Z.abs tgt < 2 ^ 52 ->
  (src = 0 -> number_of_samples buf src tgt = Raise ZeroDivisionError) /\
  (src <> 0 ->
   exists n,
     number_of_samples buf src tgt = Ok n /\
     2 * Z.abs (n * src - Z.of_nat (length buf) * tgt) <= Z.abs src /\
     forall q, Z.of_nat (length buf) * tgt = q * src -> n = q).
Proof.
  intros _ _ _. unfold number_of_samples. split.
  - intros ->. reflexivity.
  - intros Hs. destruct (Z.eqb_spec src 0) as [E|_]; [contradiction|].
    eexists. split; [reflexivity|].
    rewrite <- inject_Z_mult.
    pose proof (nearest_scaled _ src _ Hs
                  (py_round_nearest (inject_Z (Z.of_nat (length buf) * tgt) / inject_Z src)))
      as Hb.
    split; [exact Hb|].
    intros q Hq. rewrite Hq in Hb |- *.
    set (n := Np.py_round (inject_Z (q * src) / inject_Z src)) in *.
    replace (n * src - q * src) with ((n - q) * src) in Hb by ring.
    rewrite Z.abs_mul in Hb. nia.
Qed.

Lemma number_of_samples_nearest_witness :
  number_of_samples (repeat x00 2048) 0 24000 = Raise ZeroDivisionError /\
  exists n,
    number_of_samples (repeat x00 2048) 44100 24000 = Ok n /\
    2 * Z.abs (n * 44100 - 2048 * 24000) <= 44100 /\
    forall q, 2048 * 24000 = q * 44100 -> n = q.
Proof.
  split.
  - apply (proj1 (number_of_samples_nearest (repeat x00 2048) 0 24000
                    eq_refl eq_refl eq_refl)).
    reflexivity.
  - apply (proj2 (number_of_samples_nearest (repeat x00 2048) 44100 24000
                    eq_refl eq_refl eq_refl)).
    lia.
Defined.

(** ** Entering *)

Section Entry.

Variable h : Host.

Lemma aenter_runs (self : Streamer) (tr : trace)
    (a : PyAudio) (i : Z) (rate : Q) (s : Stream) :
  pyaudio_new h tr = Ok a ->
  device_index self = Some i ->
  get_device_info_by_index h (tr ++ [EvPyAudio]) i = Ok rate ->
  audio_open h (tr ++ [EvPyAudio; EvDeviceInfo i])
             (format self) (channels self) (Np.Qtrunc rate) i (chunk self) = Ok s ->
  __aenter__ h self tr
  = (Ok tt, entered self a rate s,
     tr ++ [EvPyAudio; EvDeviceInfo i; EvOpen i (Np.Qtrunc rate)]).
Proof.
  intros E1 E2 E3 E4. unfold __aenter__. run_method.
  rewrite E1. simpl. rewrite E2. simpl. rewrite E3. simpl. rewrite E2. simpl.
  rewrite <- app_assoc. simpl. rewrite E4. simpl.
  rewrite <- !app_assoc. reflexivity.
Qed.

(** X6. [__aenter__] returns exactly when the object has a [device_index]
    attribute and the three host calls succeed: [PyAudio()], the device
    lookup and [open].  The stream is then opened on that device at the
    device's own default rate, cut to an integer, with the object's
    format, channel count and chunk size; the object holds the handle, that
    rate and the stream, and its streaming flag is set. *)
Theorem aenter_succeeds_iff (self self' : Streamer) (tr tr' : trace) :
  __aenter__ h self tr = (Ok tt, self', tr') <->
  exists a i rate s,
    pyaudio_new h tr = Ok a /\
    device_index self = Some i /\
    get_device_info_by_index h (tr ++ [EvPyAudio]) i = Ok rate /\
    audio_open h (tr ++ [EvPyAudio; EvDeviceInfo i])
               (format self) (channels self) (Np.Qtrunc rate) i (chunk self) = Ok s /\
    self' = entered self a rate s /\
    tr' = tr ++ [EvPyAudio; EvDeviceInfo i; EvOpen i (Np.Qtrunc rate)].
Proof.
  unfold __aenter__. run_method. split.
  - destruct (pyaudio_new h tr) as [a|e] eqn:E1; simpl; [|discriminate].
    destruct (device_index self) as [i|] eqn:E2; simpl; [|discriminate].
    destruct (get_device_info_by_index h (tr ++ [EvPyAudio]) i) as [rate|e] eqn:E3; simpl.
    + rewrite E2. simpl.
      destruct (audio_open h ((tr ++ [EvPyAudio]) ++ [EvDeviceInfo i]) (format self)
                  (channels self) (Np.Qtrunc rate) i (chunk self)) as [s|e] eqn:E4;
        simpl; [|discriminate].
      intros H. injection H as <- <-.
      exists a, i, rate, s. rewrite <- !app_assoc in *. simpl in *.
      repeat split; assumption || reflexivity.
    + destruct (exn_eqb e IndexError); discriminate.
  - intros [a [i [rate [s [E1 [E2 [E3 [E4 [-> ->]]]]]]]]].
    rewrite E1. simpl. rewrite E2. simpl. rewrite E3. simpl. rewrite E2. simpl.
    rewrite <- app_assoc. simpl. rewrite E4. simpl.
    rewrite <- !app_assoc. reflexivity.
Qed.

(** X7. When [__aenter__] raises, the streaming flag and the [stream]
    attribute are as they were; and if [PyAudio()] had succeeded, the object
    keeps that handle and no [terminate] call was made for it. *)
Theorem aenter_failure_leaves_flag (self self' : Streamer) (tr tr' : trace) (e : exn) :
  __aenter__ h self tr = (Raise e, self', tr') ->
  streaming self' = streaming self /\
  stream self' = stream self /\
  (forall a, pyaudio_new h tr = Ok a -> audio self' = Some a) /\
  exists evs, tr' = tr ++ evs /\ ~ In EvTerminate evs.
Proof.
  unfold __aenter__. run_method.
  destruct (pyaudio_new h tr) as [a|e1] eqn:E1; simpl.
  - destruct (device_index self) as [i|] eqn:E2; simpl.
    + destruct (get_device_info_by_index h (tr ++ [EvPyAudio]) i) as [rate|e3] eqn:E3; simpl.
      * rewrite E2. simpl.
        destruct (audio_open h ((tr ++ [EvPyAudio]) ++ [EvDeviceInfo i]) (format self)
                    (channels self) (Np.Qtrunc rate) i (chunk self)) as [s|e4] eqn:E4;
          simpl; [discriminate|].
        intros H. injection H as <- <- <-. repeat split.
        -- intros a' Ha'. simpl. congruence.
        -- exists [EvPyAudio; EvDeviceInfo i; EvOpen i (Np.Qtrunc rate)].
           rewrite <- !app_assoc. split; [reflexivity|].
           intros [H|[H|[H|[]]]]; discriminate H.
      * assert (G : forall e', (@Raise unit e', set_audio (Some a) self,
                                (tr ++ [EvPyAudio]) ++ [EvDeviceInfo i])
                               = (Raise e, self', tr') ->
                    streaming self' = streaming self /\
                    stream self' = stream self /\
                    (forall a0, Ok a = Ok a0 -> audio self' = Some a0) /\
                    exists evs, tr' = tr ++ evs /\ ~ In EvTerminate evs).
        { intros e' H. injection H as <- <- <-. repeat split.
          - intros a' Ha'. simpl. congruence.
          - exists [EvPyAudio; EvDeviceInfo i]. rewrite <- !app_assoc.
            split; [reflexivity|]. intros [H|[H|[]]]; discriminate H. }
        destruct (exn_eqb e3 IndexError); apply G.
    + intros H. injection H as <- <- <-. repeat split.
      * intros a' Ha'. simpl. congruence.
      * exists [EvPyAudio]. split; [reflexivity|]. intros [H|[]]; discriminate H.
  - intros H. injection H as <- <- <-. repeat split.
    + intros a' Ha'. discriminate Ha'.
    + exists [EvPyAudio]. split; [reflexivity|]. intros [H|[]]; discriminate H.
Qed.

(** X8. Only [IndexError] is translated.  When the device lookup raises any
    other exception, that exception reaches the caller unchanged, with the
    handle kept and nothing opened. *)
Theorem aenter_lookup_error_propagates (self : Streamer) (tr : trace)
    (a : PyAudio) (i : Z) (e : exn) :
  pyaudio_new h tr = Ok a ->
  device_index self = Some i ->
  get_device_info_by_index h (tr ++ [EvPyAudio]) i = Raise e ->
  e <> IndexError ->
  __aenter__ h self tr
  = (Raise e, set_audio (Some a) self, tr ++ [EvPyAudio; EvDeviceInfo i]).
Proof.
  intros E1 E2 E3 Hne. unfold __aenter__. run_method.
  rewrite E1. simpl. rewrite E2. simpl. rewrite E3. simpl.
  rewrite <- app_assoc. simpl.
  destruct e; try reflexivity. contradiction.
Qed.

End Entry.

Lemma aenter_succeeds_iff_witness :
  exists a i rate s,
    pyaudio_new lab_host [] = Ok a /\
    device_index (set_device_index (Some 2) fresh) = Some i /\
    get_device_info_by_index lab_host [EvPyAudio] i = Ok rate /\
    audio_open lab_host [EvPyAudio; EvDeviceInfo i] paInt16 1 (Np.Qtrunc rate) i 1024 = Ok s /\
    entered (set_device_index (Some 2) fresh) PyAudioInstance (48000 # 1) 2%nat
    = entered (set_device_index (Some 2) fresh) a rate s /\
    [EvPyAudio; EvDeviceInfo 2; EvOpen 2 48000]
    = [EvPyAudio; EvDeviceInfo i; EvOpen i (Np.Qtrunc rate)].
Proof.
  apply (proj1 (aenter_succeeds_iff lab_host (set_device_index (Some 2) fresh)
                  (entered (set_device_index (Some 2) fresh) PyAudioInstance (48000 # 1) 2%nat)
                  [] [EvPyAudio; EvDeviceInfo 2; EvOpen 2 48000])).
  reflexivity.
Defined.

Lemma aenter_failure_leaves_flag_witness :
  streaming (set_audio (Some PyAudioInstance) (set_device_index (Some 99) fresh)) = false /\
  stream (set_audio (Some PyAudioInstance) (set_device_index (Some 99) fresh)) = None /\
  (forall a, pyaudio_new lab_host [] = Ok a ->
             audio (set_audio (Some PyAudioInstance) (set_device_index (Some 99) fresh))
             = Some a) /\
  exists evs, [EvPyAudio; EvDeviceInfo 99] = [] ++ evs /\ ~ In EvTerminate evs.
Proof.
  apply (aenter_failure_leaves_flag lab_host (set_device_index (Some 99) fresh)
           (set_audio (Some PyAudioInstance) (set_device_index (Some 99) fresh))
           [] [EvPyAudio; EvDeviceInfo 99] InvalidDeviceIndexError).
  reflexivity.
Defined.

Lemma aenter_lookup_error_propagates_witness :
  __aenter__ no_device_host (set_device_index (Some 99) fresh) []
  = (Raise OSError,
     set_audio (Some PyAudioInstance) (set_device_index (Some 99) fresh),
     [EvPyAudio; EvDeviceInfo 99]).
Proof.
  apply (aenter_lookup_error_propagates no_device_host (set_device_index (Some 99) fresh)
           [] PyAudioInstance 99 OSError).
  - reflexivity.
  - reflexivity.
  - reflexivity.
  - discriminate.
Defined.

(** ** Leaving *)

Section Exit.

Variable h : Host.

Lemma close_streams_keeps_object (l : list (option Stream)) (self : Streamer) (tr : trace) :
  object_after (close_streams h l self tr) = self.
Proof.
  apply (close_streams_preserves h (fun s => s) l).
Qed.

Lemma aexit_unfold (self : Streamer) (tr : trace) :
  __aexit__ h self tr
  = match close_streams h (streams self) (set_streaming false self) tr with
    | (Ok _, self1, tr1) =>
        match audio self1 with
        | Some _ =>
            match terminate h tr1 with
            | Ok _ => (Ok tt, set_audio None (set_streams [] self1), tr1 ++ [EvTerminate])
            | Raise e => (Raise e, set_streams [] self1, tr1 ++ [EvTerminate])
            end
        | None => (Ok tt, set_streams [] self1, tr1)
        end
    | (Raise e, self1, tr1) => (Raise e, self1, tr1)
    end.
Proof.
  unfold __aexit__. unfold bind at 1. simpl. unfold bind at 1. simpl.
  unfold bind at 1. simpl.
  destruct (close_streams h (streams self) (set_streaming false self) tr)
    as [[[u|e] self1] tr1]; [|reflexivity].
  unfold bind, modify, get, call, ret. simpl.
  destruct (audio self1); [|reflexivity].
  destruct (terminate h tr1); reflexivity.
Qed.

Lemma aexit_nothing_to_do (self : Streamer) (tr : trace) :
  streaming self = false -> streams self = [] -> audio self = None ->
  __aexit__ h self tr = (Ok tt, self, tr).
Proof.
  intros H1 H2 H3. rewrite aexit_unfold.
  destruct self; simpl in *; subst. reflexivity.
Qed.

(** X9. [__aexit__] clears the streaming flag on every path, the raising
    ones included, and never touches the configuration, the device lists,
    the rate table or the [stream] attribute that [__aenter__] set. *)
Theorem aexit_clears_flag_only (self : Streamer) (tr : trace) :
  let self' := object_after (__aexit__ h self tr) in
  streaming self' = false /\
  stream self' = stream self /\
  device_indices self' = device_indices self /\
  original_sample_rates self' = original_sample_rates self /\
  (sample_rate self', channels self', chunk self')
  = (sample_rate self, channels self, chunk self).
Proof.
  intros self'. subst self'. split; [apply aexit_stops_streaming|].
  rewrite aexit_unfold.
  pose proof (close_streams_keeps_object (streams self) (set_streaming false self) tr) as K.
  destruct (close_streams h (streams self) (set_streaming false self) tr)
    as [[[u|e] self1] tr1]; unfold object_after in *; simpl in K; subst self1.
  - destruct (audio (set_streaming false self)); [destruct (terminate h tr1)|];
      simpl; repeat split.
  - simpl. repeat split.
Qed.

(** X10. A teardown that returned has nothing left to do: the object has
    no sessions and no handle, and running [__aexit__] again makes no host
    call, raises nothing and leaves the object as it is. *)
Theorem aexit_twice (self self' : Streamer) (tr tr' : trace) :
  __aexit__ h self tr = (Ok tt, self', tr') ->
  streams self' = [] /\ audio self' = None /\
  __aexit__ h self' tr' = (Ok tt, self', tr').
Proof.
  intros H.
  assert (S : streaming self' = false).
  { pose proof (aexit_stops_streaming h self tr) as F. rewrite H in F. exact F. }
  assert (P : streams self' = [] /\ audio self' = None).
  { rewrite aexit_unfold in H.
    destruct (close_streams h (streams self) (set_streaming false self) tr)
      as [[[u|e] self1] tr1]; [|discriminate].
    destruct (audio self1) eqn:Ea.
    - destruct (terminate h tr1); [|discriminate].
      injection H as <- <-. split; reflexivity.
    - injection H as <- <-. split; [reflexivity | exact Ea]. }
  destruct P as [P1 P2]. repeat split; try assumption.
  now apply aexit_nothing_to_do.
Qed.



(** X12. The stream that [__aenter__] opens is kept in [stream], not in
    [streams].  So for an object whose [streams] is empty, as [__init__]
    leaves it, entering and then leaving makes four host calls, of which none
    stops or closes the stream: the handle is terminated and dropped, and the
    object still refers to the open stream. *)
Theorem exit_after_enter_leaves_stream (self : Streamer) (tr : trace)
    (a : PyAudio) (i : Z) (rate : Q) (s : Stream) :
  streams self = [] ->
  pyaudio_new h tr = Ok a ->
  device_index self = Some i ->
  get_device_info_by_index h (tr ++ [EvPyAudio]) i = Ok rate ->
  audio_open h (tr ++ [EvPyAudio; EvDeviceInfo i])
             (format self) (channels self) (Np.Qtrunc rate) i (chunk self) = Ok s ->
  terminate h (tr ++ [EvPyAudio; EvDeviceInfo i; EvOpen i (Np.Qtrunc rate)]) = Ok tt ->
  exists self1 tr1 self2,
    __aenter__ h self tr = (Ok tt, self1, tr1) /\
    __aexit__ h self1 tr1
    = (Ok tt, self2,
       tr ++ [EvPyAudio; EvDeviceInfo i; EvOpen i (Np.Qtrunc rate); EvTerminate]) /\
    stream self2 = Some s /\ streaming self2 = false /\ audio self2 = None.
Proof.
  intros Hs E1 E2 E3 E4 E5.
  exists (entered self a rate s),
         (tr ++ [EvPyAudio; EvDeviceInfo i; EvOpen i (Np.Qtrunc rate)]),
         (set_audio None (set_streams [] (set_streaming false (entered self a rate s)))).
  split; [|split; [|repeat split]].
  - now apply aenter_runs.
  - rewrite aexit_unfold. simpl. rewrite Hs. simpl. unfold ret.
    simpl. rewrite E5. rewrite <- app_assoc. reflexivity.
Qed.

End Exit.

Lemma aexit_twice_witness :
  let r := __aexit__ lab_host two_devices [] in
  streams (object_after r) = [] /\ audio (object_after r) = None /\
  __aexit__ lab_host (object_after r) (snd r) = (Ok tt, object_after r, snd r).
Proof.
  intros r.
  apply (aexit_twice lab_host two_devices (object_after r) [] (snd r)).
  reflexivity.
Defined.


Lemma exit_after_enter_leaves_stream_witness :
  exists self1 tr1 self2,
    __aenter__ lab_host (set_device_index (Some 2) fresh) [] = (Ok tt, self1, tr1) /\
    __aexit__ lab_host self1 tr1
    = (Ok tt, self2, [EvPyAudio; EvDeviceInfo 2; EvOpen 2 48000; EvTerminate]) /\
    stream self2 = Some 2%nat /\ streaming self2 = false /\ audio self2 = None.
Proof.
  apply (exit_after_enter_leaves_stream lab_host (set_device_index (Some 2) fresh) []
           PyAudioInstance 2 (48000 # 1) 2%nat);
    reflexivity.
Defined.

(** ** What a read cycle does *)

Section CycleContents.

Variables (h : Host) (self : Streamer).

Lemma read_resampled_event (tr : trace) (d : Z) (s : option Stream) :
  snd (read_resampled h self tr d s) = tr ++ cycle_read_events [(d, s)].
Proof.
  rewrite read_resampled_trace. destruct s; simpl; [reflexivity | now rewrite app_nil_r].
Qed.

Lemma read_array_event (tr : trace) (d : Z) (s : option Stream) :
  snd (read_array h self tr d s) = tr ++ cycle_read_events [(d, s)].
Proof.
  rewrite read_array_trace. apply read_resampled_event.
Qed.

Lemma cycle_read_events_cons (p : Z * option Stream) (pairs : list (Z * option Stream)) :
  cycle_read_events (p :: pairs) = cycle_read_events [p] ++ cycle_read_events pairs.
Proof.
  unfold cycle_read_events. simpl. now rewrite app_nil_r.
Qed.

Lemma multi_channel_loop_trace (pairs : list (Z * option Stream))
    (audio_data : dict bytes) (tr : trace) :
  snd (multi_channel_loop h self pairs audio_data tr) = tr ++ cycle_read_events pairs.
Proof.
  revert audio_data tr; induction pairs as [|[d s] pairs IH]; intros audio_data tr.
  - simpl. now rewrite app_nil_r.
  - rewrite cycle_read_events_cons, app_assoc, <- read_resampled_event. simpl.
    destruct (read_resampled h self tr d s) as [[data|e] tr1]; apply IH.
Qed.

Lemma single_channel_loop_trace (pairs : list (Z * option Stream))
    (audio_arrays : list (list Z)) (tr : trace) :
  snd (single_channel_loop h self pairs audio_arrays tr) = tr ++ cycle_read_events pairs.
Proof.
  revert audio_arrays tr; induction pairs as [|[d s] pairs IH]; intros audio_arrays tr.
  - simpl. now rewrite app_nil_r.
  - rewrite cycle_read_events_cons, app_assoc, <- read_array_event. simpl.
    destruct (read_array h self tr d s) as [[a|e] tr1]; apply IH.
Qed.

(** X13. While streaming, one cycle of either generator calls [read] once
    on each stream paired with a device index, in list order, and makes no
    other host call; a failure on one device does not keep the later ones
    from being read, nor does a failure of the mixer change what was read. *)
Theorem cycle_reads_every_stream (tr : trace) :
  streaming self = true ->
  snd (multi_channel_cycle h self tr)
  = tr ++ cycle_read_events (combine (device_indices self) (streams self)) /\
  snd (single_channel_cycle h self tr)
  = tr ++ cycle_read_events (combine (device_indices self) (streams self)).
Proof.
  intros Hs. unfold multi_channel_cycle, single_channel_cycle. rewrite Hs. split.
  - pose proof (multi_channel_loop_trace
                  (combine (device_indices self) (streams self)) [] tr) as T.
    destruct (multi_channel_loop h self (combine (device_indices self) (streams self)) [] tr)
      as [audio_data tr1].
    simpl in T. destruct (truthy audio_data); exact T.
  - pose proof (single_channel_loop_trace
                  (combine (device_indices self) (streams self)) [] tr) as T.
    destruct (single_channel_loop h self (combine (device_indices self) (streams self)) [] tr)
      as [audio_arrays tr1].
    simpl in T. destruct (truthy audio_arrays); [|exact T].
    destruct (_mix_audio_chunks audio_arrays); exact T.
Qed.

Lemma dict_set_fresh {V : Type} (d : dict V) (k : Z) (v : V) :
  ~ In k (map fst d) -> dict_set d k v = d ++ [(k, v)].
Proof.
  induction d as [|[k' v'] d IH]; intros Hk; simpl; [reflexivity|].
  simpl in Hk. destruct (Z.eqb_spec k' k) as [E|_].
  - exfalso. apply Hk. now left.
  - rewrite IH; [reflexivity|]. intros H. apply Hk. now right.
Qed.

Lemma multi_channel_loop_frame (pairs : list (Z * option Stream))
    (audio_data : dict bytes) (tr : trace) :
  NoDup (map fst pairs) ->
  (forall k, In k (map fst pairs) -> ~ In k (map fst audio_data)) ->
  fst (multi_channel_loop h self pairs audio_data tr)
  = audio_data ++ successes pairs (cycle_outcomes (read_resampled h self) pairs tr).
Proof.
  revert audio_data tr; induction pairs as [|[d s] pairs IH]; intros audio_data tr Hnd Hfresh.
  - simpl. now rewrite app_nil_r.
  - simpl in Hnd. inversion Hnd as [|? ? Hd Hnd']; subst. simpl.
    destruct (read_resampled h self tr d s) as [[data|e] tr1].
    + rewrite IH.
      * rewrite dict_set_fresh by (apply Hfresh; now left).
        rewrite <- app_assoc. reflexivity.
      * exact Hnd'.
      * intros k Hk. rewrite dict_set_fresh by (apply Hfresh; now left).
        rewrite map_app, in_app_iff. simpl. intros [H|[H|[]]].
        -- apply (Hfresh k); [now right | exact H].
        -- subst k. contradiction.
    + apply IH; [exact Hnd'|]. intros k Hk. apply Hfresh. now right.
Qed.

Lemma NoDup_combine_fst {B : Type} (l : list Z) (l' : list B) :
  NoDup l -> NoDup (map fst (combine l l')).
Proof.
  intros Hnd; revert l'; induction Hnd as [|x l Hx _ IH]; intros [|y l']; simpl;
    try constructor.
  - intros H. apply Hx. apply in_map_iff in H. destruct H as [[a b] [<- Hin]].
    simpl. eapply in_combine_l. exact Hin.
  - apply IH.
Qed.

(** X14. While streaming, with no device index listed twice, the frame of
    one cycle of [multi_channel_gen] holds exactly the devices whose inner
    [try] block succeeded, each with its resampled bytes, in the order of
    [device_indices]; the frame is yielded when it has an entry and the
    cycle is skipped when it has none. *)
Theorem multi_channel_frame (tr : trace) :
  streaming self = true ->
  NoDup (device_indices self) ->
  fst (multi_channel_cycle h self tr)
  = let frame := successes (combine (device_indices self) (streams self))
                           (cycle_resampled h self tr) in
    if truthy frame then Yield frame else Skip.
Proof.
  intros Hs Hnd. unfold multi_channel_cycle, cycle_resampled. rewrite Hs.
  pose proof (multi_channel_loop_frame (combine (device_indices self) (streams self)) [] tr
                (NoDup_combine_fst _ _ Hnd) (fun k _ H => H)) as F.
  destruct (multi_channel_loop h self (combine (device_indices self) (streams self)) [] tr)
    as [audio_data tr1].
  simpl in F. subst audio_data. simpl.
  destruct (truthy _); reflexivity.
Qed.

Lemma single_channel_loop_arrays (pairs : list (Z * option Stream))
    (audio_arrays : list (list Z)) (tr : trace) :
  fst (single_channel_loop h self pairs audio_arrays tr)
  = audio_arrays ++ oks (cycle_outcomes (read_array h self) pairs tr).
Proof.
  revert audio_arrays tr; induction pairs as [|[d s] pairs IH]; intros audio_arrays tr.
  - simpl. now rewrite app_nil_r.
  - simpl. destruct (read_array h self tr d s) as [[a|e] tr1].
    + rewrite IH, <- app_assoc. reflexivity.
    + apply IH.
Qed.

(** X15. The arrays one cycle of [single_channel_gen] hands to the mixer
    are the decoded buffers of the devices whose inner [try] block
    succeeded, one each, in the order of [device_indices]; while streaming
    the cycle yields the bytes of their mix, ends the generator when the
    mixer raises, and is skipped when there is no array. *)
Theorem single_channel_mix_input (tr : trace) :
  collected_arrays h self tr = oks (cycle_arrays h self tr) /\
  (streaming self = true ->
   fst (single_channel_cycle h self tr)
   = match oks (cycle_arrays h self tr) with
     | [] => Skip
     | arrays => match _mix_audio_chunks arrays with
                 | Ok mixed_data => Yield (Np.tobytes mixed_data)
                 | Raise _ => Return
                 end
     end).
Proof.
  assert (C : collected_arrays h self tr = oks (cycle_arrays h self tr)).
  { unfold collected_arrays, cycle_arrays. now rewrite single_channel_loop_arrays. }
  split; [exact C|].
  intros Hs. rewrite <- C. unfold single_channel_cycle, collected_arrays. rewrite Hs.
  destruct (single_channel_loop h self (combine (device_indices self) (streams self)) [] tr)
    as [audio_arrays tr1].
  cbn [fst]. destruct audio_arrays as [|a rest]; [reflexivity|].
  cbn [truthy]. destruct (_mix_audio_chunks (a :: rest)); reflexivity.
Qed.

(** X16. While the streaming flag is set, [multi_channel_gen] never ends:
    whatever the devices do and however many loop turns are allowed, a
    request for its next item does not report the end of the sequence. *)
Theorem multi_channel_gen_never_ends (fuel : nat) (tr : trace) :
  streaming self = true ->
  fst (multi_channel_gen h fuel self tr) <> Exhausted.
Proof.
  intros Hs. unfold multi_channel_gen.
  revert tr; induction fuel as [|fuel IH]; intros tr; simpl; [discriminate|].
  unfold multi_channel_cycle at 1. rewrite Hs.
  destruct (multi_channel_loop h self (combine (device_indices self) (streams self)) [] tr)
    as [audio_data tr1].
  destruct (truthy audio_data); [discriminate | apply IH].
Qed.

(** X17. [single_channel_gen] does end while the flag is set: in the first
    cycle whose collected arrays the mixer refuses, for instance because
    they differ in length, the generator finishes after that cycle's reads
    and a request for the next item reports the end of the sequence. *)
Theorem single_channel_gen_ends_on_mix_error (fuel : nat) (tr : trace) (e : exn) :
  streaming self = true ->
  _mix_audio_chunks (collected_arrays h self tr) = Raise e ->
  single_channel_gen h (S fuel) self tr
  = (Exhausted, tr ++ cycle_read_events (combine (device_indices self) (streams self))).
Proof.
  intros Hs Hm. unfold single_channel_gen. simpl.
  pose proof (single_channel_loop_trace
                (combine (device_indices self) (streams self)) [] tr) as T.
  unfold single_channel_cycle, collected_arrays in *. rewrite Hs.
  destruct (single_channel_loop h self (combine (device_indices self) (streams self)) [] tr)
    as [audio_arrays tr1].
  cbn [fst] in Hm. cbn [snd] in T. destruct audio_arrays as [|a rest]; [discriminate Hm|].
  cbn [truthy]. rewrite Hm, T. reflexivity.
Qed.

End CycleContents.

Lemma cycle_reads_every_stream_witness :
  snd (multi_channel_cycle deaf_host two_devices []) = [EvRead 2%nat; EvRead 3%nat] /\
  snd (single_channel_cycle deaf_host two_devices []) = [EvRead 2%nat; EvRead 3%nat].
Proof.
  apply (cycle_reads_every_stream deaf_host two_devices []). reflexivity.
Defined.

Lemma multi_channel_frame_witness :
  fst (multi_channel_cycle half_deaf_host two_devices []) = Yield [(2, repeat x00 8)].
Proof.
  apply (multi_channel_frame half_deaf_host two_devices []).
  - reflexivity.
  - repeat constructor; simpl; intuition discriminate.
Defined.

Lemma single_channel_mix_input_witness :
  fst (single_channel_cycle half_deaf_host two_devices []) = Yield (repeat x00 8).
Proof.
  apply (proj2 (single_channel_mix_input half_deaf_host two_devices [])). reflexivity.
Defined.

Lemma multi_channel_gen_never_ends_witness :
  fst (multi_channel_gen deaf_host 50 two_devices []) <> Exhausted.
Proof.
  apply (multi_channel_gen_never_ends deaf_host two_devices 50 []). reflexivity.
Defined.

Lemma single_channel_gen_ends_on_mix_error_witness :
  single_channel_gen uneven_host 1 two_devices []
  = (Exhausted, [EvRead 2%nat; EvRead 3%nat]).
Proof.
  apply (single_channel_gen_ends_on_mix_error uneven_host two_devices 0 [] ValueError).
  - reflexivity.
  - reflexivity.
Defined.

(** ** One device *)

Section OneDevice.

Variables (h : Host) (self : Streamer).

(** X18. With a single device whose inner [try] block gives the bytes [b],
    [multi_channel_gen] yields the frame holding [b] under that device's
    index.  [single_channel_gen] yields the very same bytes [b] when their
    number is even, the mix of one buffer being that buffer; when it is odd
    the decoding to 16-bit samples fails and the cycle yields nothing, though
    the read succeeded. *)
Theorem one_device_passthrough (d : Z) (st : option Stream) (b : bytes) (tr tr' : trace) :
  streaming self = true ->
  device_indices self = [d] ->
  streams self = [st] ->
  read_resampled h self tr d st = (Ok b, tr') ->
  multi_channel_cycle h self tr = (Yield [(d, b)], tr') /\
  (Nat.even (length b) = true -> single_channel_cycle h self tr = (Yield b, tr')) /\
  (Nat.even (length b) = false -> single_channel_cycle h self tr = (Skip, tr')).
Proof.
  intros Hs Hd Hst Hr.
  unfold multi_channel_cycle, single_channel_cycle. rewrite Hs, Hd, Hst.
  cbn [combine multi_channel_loop single_channel_loop].
  unfold read_array. rewrite Hr.
  destruct (frombuffer_even_odd b) as [He Ho].
  split; [reflexivity | split].
  - intros E. destruct (He E) as [l [El [_ [Hrange Hb]]]].
    rewrite El. cbn [app truthy].
    change [l] with (repeat l 1).
    rewrite (mix_repeat l 0 Hrange), Hb. reflexivity.
  - intros E. rewrite (Ho E). reflexivity.
Qed.

End OneDevice.

Lemma one_device_passthrough_witness :
  multi_channel_cycle lab_host one_device [] = (Yield [(3, repeat x00 8)], [EvRead 3%nat]) /\
  single_channel_cycle lab_host one_device [] = (Yield (repeat x00 8), [EvRead 3%nat]) /\
  single_channel_cycle uneven_host one_device [] = (Skip, [EvRead 3%nat]).
Proof.
  destruct (one_device_passthrough lab_host one_device 3 (Some 3%nat) (repeat x00 8)
              [] [EvRead 3%nat] eq_refl eq_refl eq_refl eq_refl) as [Hm [He _]].
  destruct (one_device_passthrough uneven_host one_device 3 (Some 3%nat) (repeat x00 3)
              [] [EvRead 3%nat] eq_refl eq_refl eq_refl eq_refl) as [_ [_ Ho]].
  split; [exact Hm | split; [apply He | apply Ho]]; reflexivity.
Defined.
